(** * Points read from text streams: [point.h] and [main.cpp]

    A shallow embedding of the class template [Point<T,SIZE>] (its
    [distance], [operator>], [fromStream] and [toStream]) and of the
    function template [print_max] that scans a file for the point furthest
    from zero.

    The C++ stream a point is read from is the characters that remain to be
    read, the read offset and the two state bits the code can observe
    ([eofbit], [failbit]); the extractions behave as the C++ standard
    library has them in a default stream and the classic locale.  The
    component type [T] is a type class with the two instances [main] uses,
    [int] and [double]; a [double] is a primitive binary64 float.  An
    exception is a value returned next to the stream and the point, both of
    which the code changes in place.  Where C++ leaves the behaviour
    undefined a function has no value. *)

From Stdlib Require Import ZArith Ascii String List Bool Lia Floats.
From stdpp Require Import base option list.

Open Scope Z_scope.

(** ** Characters *)

Module Char.

Definition code (c : ascii) : Z := Z.of_N (N_of_ascii c).

Definition of_code (n : Z) : ascii := ascii_of_N (Z.to_N n).

Definition newline : ascii := of_code 10.

(** [std::isspace] in the classic locale: space, and the controls
    [\t \n \v \f \r]. *)
Definition isspace (c : ascii) : bool :=
  (code c =? 32) || ((9 <=? code c) && (code c <=? 13)).

Definition isdigit (c : ascii) : bool :=
  (48 <=? code c) && (code c <=? 57).

Definition digit_value (c : ascii) : Z := code c - 48.

Definition digit (d : Z) : ascii := of_code (48 + d).

Definition text (s : string) : list ascii := list_ascii_of_string s.

End Char.

(** ** Input streams *)

Module Stream.

(** What [std::istream] shows to the code: the characters not yet
    extracted, the number already extracted ([tellg]) and the state bits.
    [badbit] is set by no operation used here. *)
Record istream : Type := mk_istream {
  buffer : list ascii;
  offset : Z;
  eofbit : bool;
  failbit : bool
}.

(** A stream freshly opened on the given text. *)
Definition open (txt : list ascii) : istream :=
  {| buffer := txt; offset := 0; eofbit := false; failbit := false |}.

Definition good (s : istream) : bool := negb (eofbit s) && negb (failbit s).

Definition clear (s : istream) : istream :=
  {| buffer := buffer s; offset := offset s;
     eofbit := false; failbit := false |}.

Definition setstate (eof fail : bool) (s : istream) : istream :=
  {| buffer := buffer s; offset := offset s;
     eofbit := eofbit s || eof; failbit := failbit s || fail |}.

(** Extraction up to the suffix [rest] of the buffer. *)
Definition advance (s : istream) (rest : list ascii) : istream :=
  {| buffer := rest;
     offset := offset s + (Z.of_nat (length (buffer s)) - Z.of_nat (length rest));
     eofbit := eofbit s; failbit := failbit s |}.

Fixpoint skip_ws (b : list ascii) : list ascii :=
  match b with
  | c :: rest => if Char.isspace c then skip_ws rest else b
  | [] => []
  end.

(** [istream::sentry] of a formatted input function ([skipws] is set in a
    default stream): a stream that is not good gets [failbit]; otherwise
    white space is discarded, and reaching the end while doing so sets
    [failbit | eofbit]. *)
Definition sentry (s : istream) : istream * bool :=
  if good s then
    let s1 := advance s (skip_ws (buffer s)) in
    match buffer s1 with
    | [] => (setstate true true s1, false)
    | _ :: _ => (s1, true)
    end
  else (setstate false true s, false).

(** [is >> c] for a [char]. *)
Definition extract_char (s : istream) (c : ascii) : istream * ascii :=
  let (s1, ok) := sentry s in
  if ok then
    match buffer s1 with
    | x :: rest => (advance s1 rest, x)
    | [] => (setstate true true s1, c)
    end
  else (s1, c).

(** [is.get()]: unformatted, no white space skipped; [-1] is
    [traits_type::eof()]. *)
Definition get (s : istream) : istream * Z :=
  if good s then
    match buffer s with
    | x :: rest => (advance s rest, Char.code x)
    | [] => (setstate true true s, -1)
    end
  else (setstate false true s, -1).

(** [is.tellg()]. *)
Definition tellg (s : istream) : istream * Z :=
  if good s then (s, offset s) else (setstate false true s, -1).

End Stream.

Import Stream.

(** ** Component types *)

(** What the templates ask of [T]: value initialisation, the [num_get] and
    [num_put] conversions behind [>>] and [<<], the statement
    [sum_of_squares += std::pow(a - b, 2)] ([None] where the C++ standard
    leaves it undefined) and the conversion to [double] at
    [std::sqrt(sum_of_squares)].

    [num_get] is given the buffer after the sentry; it returns the
    characters left, whether it sets [failbit], and the value it stores. It
    sets [eofbit] exactly when it leaves nothing. *)
Class Numeric (T : Type) : Type := {
  zero : T;
  num_get : list ascii -> list ascii * bool * T;
  num_put : T -> list ascii;
  add_squared_difference : T -> T -> T -> option T;
  to_double : T -> float
}.

(** [is >> temp] for an arithmetic type. *)
Definition extract {T} `{Numeric T} (s : istream) (temp : T) : istream * T :=
  let (s1, ok) := sentry s in
  if ok then
    let '(rest, fail, v) := num_get (buffer s1) in
    (setstate (bool_decide (rest = [])) fail (advance s1 rest), v)
  else (s1, temp).

(** *** [int] *)

Module Int.

Definition min : Z := - 2 ^ 31.
Definition max : Z := 2 ^ 31 - 1.

Definition in_range (v : Z) : Prop := min <= v <= max.

Definition fits (v : Z) : bool := (min <=? v) && (v <=? max).

(** The digits of a decimal field: value so far, digits seen, rest. *)
Fixpoint get_digits (b : list ascii) (acc : Z) (seen : nat)
  : Z * nat * list ascii :=
  match b with
  | c :: rest =>
      if Char.isdigit c
      then get_digits rest (acc * 10 + Char.digit_value c) (S seen)
      else (acc, seen, b)
  | [] => (acc, seen, [])
  end.

Definition get_sign (b : list ascii) : bool * list ascii :=
  match b with
  | c :: rest =>
      if Ascii.eqb c "-" then (true, rest)
      else if Ascii.eqb c "+" then (false, rest)
      else (false, b)
  | [] => (false, b)
  end.

(** [num_get<char>::get] for [int] with [basefield == dec]: an optional
    sign and all the digits that follow are taken; no digit is a failure
    storing [0]; a value outside [int] is a failure storing the nearest
    bound. *)
Definition get (b : list ascii) : list ascii * bool * Z :=
  let (negative, b1) := get_sign b in
  let '(n, seen, b2) := get_digits b1 0 0 in
  match seen with
  | O => (b2, true, 0)
  | S _ =>
      let v := if negative then - n else n in
      if v <? min then (b2, true, min)
      else if max <? v then (b2, true, max)
      else (b2, false, v)
  end.

Fixpoint decimal_aux (fuel : nat) (n : Z) (acc : list ascii) : list ascii :=
  let acc' := Char.digit (n mod 10) :: acc in
  match fuel with
  | O => acc'
  | S fuel' => if n <? 10 then acc' else decimal_aux fuel' (n / 10) acc'
  end.

(** The decimal digits of [n >= 0], most significant first. *)
Definition decimal (n : Z) : list ascii :=
  decimal_aux (Z.to_nat (Z.log2 n)) n [].

(** [num_put<char>::put] for [int] with the default flags. *)
Definition put (v : Z) : list ascii :=
  if v <? 0 then "-"%char :: decimal (- v) else decimal v.

(** [sum_of_squares += std::pow(a - b, 2)] with [int sum_of_squares]:
    [a - b] is an [int] subtraction; [std::pow] and the addition are done
    in [double]; the sum is converted back to [int], which is undefined
    when it does not fit. Where the result is defined every intermediate
    value is an integer below [2^31], hence exact in [double]. *)
Definition add_squared_difference (sum a b : Z) : option Z :=
  let d := a - b in
  if fits d then
    let sum' := sum + d * d in
    if fits sum' then Some sum' else None
  else None.

(** [static_cast<double>(n)]; exact for [|n| < 2^53]. *)
Definition to_double (n : Z) : float :=
  match n with
  | Z0 => PrimFloat.zero
  | Zpos _ => PrimFloat.of_uint63 (Uint63.of_Z n)
  | Zneg _ => PrimFloat.opp (PrimFloat.of_uint63 (Uint63.of_Z (- n)))
  end.

End Int.

#[export] Instance int_numeric : Numeric Z := {|
  zero := 0;
  num_get := Int.get;
  num_put := Int.put;
  add_squared_difference := Int.add_squared_difference;
  to_double := Int.to_double
|}.

(** *** [double] *)

Module Double.

Fixpoint drop_zeros (ds : list ascii) : list ascii :=
  match ds with
  | c :: rest => if Ascii.eqb c "0" then drop_zeros rest else ds
  | [] => []
  end.

Definition strip_zeros (ds : list ascii) : list ascii :=
  rev (drop_zeros (rev ds)).

(** The fraction of a [%g] conversion: trailing zeros go, and the point
    with them when nothing is left. *)
Definition fraction (ds : list ascii) : list ascii :=
  match strip_zeros ds with
  | [] => []
  | f => "."%char :: f
  end.

Fixpoint exponent_below (fuel : nat) (num den k : Z) : Z :=
  match fuel with
  | O => k
  | S fuel' =>
      if den <=? num * 10 then k - 1
      else exponent_below fuel' (num * 10) den (k - 1)
  end.

(** [X] with [10^X <= num/den < 10^(X+1)], for a finite positive
    binary64 value [num/den]. *)
Definition decimal_exponent (num den : Z) : Z :=
  if den <=? num then Z.of_nat (length (Int.decimal (num / den))) - 1
  else exponent_below 400 num den 0.

Definition round_half_even (num den : Z) : Z :=
  let q := num / den in
  match 2 * (num mod den) ?= den with
  | Lt => q
  | Gt => q + 1
  | Eq => if Z.even q then q else q + 1
  end.

(** The six significant digits and the exponent of the [%e] conversion
    of [num/den] with precision 5. *)
Definition six_digits (num den : Z) : Z * Z :=
  let X := decimal_exponent num den in
  let D := if X <=? 5 then round_half_even (num * 10 ^ (5 - X)) den
           else round_half_even num (den * 10 ^ (X - 5)) in
  if D =? 1000000 then (100000, X + 1) else (D, X).

Definition style_e (ds : list ascii) (X : Z) : list ascii :=
  take 1 ds ++ fraction (drop 1 ds)
  ++ "e"%char :: (if X <? 0 then "-"%char else "+"%char)
  :: (if Z.abs X <? 10 then "0"%char :: Int.decimal (Z.abs X)
      else Int.decimal (Z.abs X)).

Definition style_f (ds : list ascii) (X : Z) : list ascii :=
  if 0 <=? X
  then take (Z.to_nat (X + 1)) ds ++ fraction (drop (Z.to_nat (X + 1)) ds)
  else "0"%char :: fraction (replicate (Z.to_nat (- X - 1)) "0"%char ++ ds).

Definition put_finite (m : positive) (e : Z) : list ascii :=
  let (num, den) := if 0 <=? e then (Z.pos m * 2 ^ e, 1)
                    else (Z.pos m, 2 ^ (- e)) in
  let (D, X) := six_digits num den in
  if (-4 <=? X) && (X <? 6) then style_f (Int.decimal D) X
  else style_e (Int.decimal D) X.

Definition put_sign (s : bool) : list ascii :=
  if s then ["-"%char] else [].

(** [num_put<char>::put] for [double] in a default stream:
    [precision() == 6] and no [floatfield] flag, the [%g] conversion of
    the exact value, rounded to nearest. *)
Definition put (x : float) : list ascii :=
  match Prim2SF x with
  | S754_zero s => put_sign s ++ Char.text "0"
  | S754_infinity s => put_sign s ++ Char.text "inf"
  | S754_nan => Char.text "nan"
  | S754_finite s m e => put_sign s ++ put_finite m e
  end.

Definition max_value : float :=
  SF2Prim (S754_finite false (2 ^ 53 - 1) (emax - prec)).

(** The binary64 value nearest to [(-1)^negative * m * 10^E]. *)
Definition nearest (negative : bool) (m E : Z) : spec_float :=
  match m with
  | Z.pos p =>
      if 0 <=? E
      then binary_normalize prec emax
             ((if negative then - m else m) * 10 ^ E) 0 negative
      else SFdiv prec emax (S754_finite negative p 0)
             (S754_finite false (Z.to_pos (10 ^ (- E))) 0)
  | _ => S754_zero negative
  end.

Definition is_e (c : ascii) : bool := Ascii.eqb c "e" || Ascii.eqb c "E".

(** The digits after a decimal point carry on the mantissa [ip]. *)
Definition get_fraction (b : list ascii) (ip : Z) : Z * nat * list ascii :=
  match b with
  | c :: rest =>
      if Ascii.eqb c "." then Int.get_digits rest ip 0 else (ip, O, b)
  | [] => (ip, O, b)
  end.

(** An exponent is taken only after a mantissa digit: its value and the
    number of its digits. *)
Definition get_exponent (b : list ascii) (found_mantissa : bool)
  : option (Z * nat) * list ascii :=
  match b with
  | c :: rest =>
      if is_e c && found_mantissa then
        let (negative, b1) := Int.get_sign rest in
        let '(n, seen, b2) := Int.get_digits b1 0 0 in
        (Some (if negative then - n else n, seen), b2)
      else (None, b)
  | [] => (None, b)
  end.

(** [num_get<char>::get] for [double]: sign, digits, point, digits,
    exponent are taken as far as they go; the field must have a mantissa
    digit and, after an exponent mark, an exponent digit, else it is a
    failure storing [0]; a value that overflows is a failure storing the
    largest finite value. *)
Definition get (b : list ascii) : list ascii * bool * float :=
  let (negative, b1) := Int.get_sign b in
  let '(ip, n1, b2) := Int.get_digits b1 0 0 in
  let '(m, n2, b3) := get_fraction b2 ip in
  let found_mantissa := negb (Nat.eqb (n1 + n2) 0) in
  let (ex, b4) := get_exponent b3 found_mantissa in
  let valid := found_mantissa
               && match ex with Some (_, O) => false | _ => true end in
  if valid then
    let E := match ex with Some (n, _) => n | None => 0 end - Z.of_nat n2 in
    match nearest negative m E with
    | S754_infinity s =>
        (b4, true, if s then PrimFloat.opp max_value else max_value)
    | v => (b4, false, SF2Prim v)
    end
  else (b4, true, PrimFloat.zero).

(** [sum_of_squares += std::pow(a - b, 2)] with
    [double sum_of_squares]; [std::pow(x, 2)] is taken to be the rounded
    square. *)
Definition add_squared_difference (sum a b : float) : option float :=
  Some (PrimFloat.add sum
          (PrimFloat.mul (PrimFloat.sub a b) (PrimFloat.sub a b))).

End Double.

#[export] Instance double_numeric : Numeric float := {|
  zero := PrimFloat.zero;
  num_get := Double.get;
  num_put := Double.put;
  add_squared_difference := Double.add_squared_difference;
  to_double := fun x => x
|}.

(** ** Exceptions *)

(** [Point<T,SIZE>::Error] and its two subclasses, with the description
    [what()] returns; [StdException] stands for any other
    [std::exception], which [print_max] also catches. *)
Inductive exception : Type :=
| EmptyStreamError (description : string)
| InvalidSymbolError (description : string)
| StdException (description : string).

Definition what (e : exception) : string :=
  match e with
  | EmptyStreamError d | InvalidSymbolError d | StdException d => d
  end.

Inductive outcome : Type :=
| Returned
| Thrown (e : exception).

(** ** [Point<T,SIZE>] *)

Section Point.

Context {T : Type} `{Numeric T}.
Variable SIZE : nat.

(** [T components_[SIZE]]. *)
Definition Point : Type := list T.

(** [Point() : components_{} {}]. *)
Definition Point_default : Point := replicate SIZE zero.

(** The loop of [distance] over the paired components, from
    [T sum_of_squares = 0]. *)
Fixpoint sum_of_squares (this p : Point) (sum : T) : option T :=
  match this, p with
  | a :: this', b :: p' =>
      sum' ← add_squared_difference sum a b;
      sum_of_squares this' p' sum'
  | _, _ => Some sum
  end.

Definition distance (this p : Point) : option float :=
  sum ← sum_of_squares this p zero;
  Some (PrimFloat.sqrt (to_double sum)).

(** [operator>]. *)
Definition gt (this p : Point) : option bool :=
  d1 ← distance this Point_default;
  d2 ← distance p Point_default;
  Some (PrimFloat.ltb d2 d1).

(** The [for] loop of [fromStream]: [n] iterations are left, [i] is the
    index; [i < SIZE] throughout, so on a point of [SIZE] components every
    store is in range. *)
Fixpoint read_components (n i : nat) (is0 : istream) (temp : T) (this : Point)
  : istream * Point * outcome :=
  match n with
  | O => (is0, this, Returned)
  | S n' =>
      let (is1, temp1) := extract is0 temp in
      if negb (good is1)
      then (clear is1, this,
            Thrown (InvalidSymbolError "unable to read value"))
      else read_components n' (S i) is1 temp1 (<[i := temp1]> this)
  end.

(** [fromStream]. The locals [parenthesis] and [temp] start
    uninitialised; the code reads neither before a successful
    extraction wrote it, so any start value does. *)
Definition fromStream (is0 : istream) (this : Point)
  : istream * Point * outcome :=
  let (is1, parenthesis) := extract_char is0 Ascii.zero in
  if negb (good is1)
  then (clear is1, this, Thrown (EmptyStreamError "empty stream"))
  else if negb (Ascii.eqb parenthesis "(")
  then (is1, this, Thrown (InvalidSymbolError "invalid symbol"))
  else
    match read_components SIZE 0 is1 zero this with
    | (is2, this2, Returned) =>
        let (is3, parenthesis') := extract_char is2 parenthesis in
        if negb (good is3)
        then (clear is3, this2, Thrown (EmptyStreamError "empty stream"))
        else if negb (Ascii.eqb parenthesis' ")")
        then (is3, this2, Thrown (InvalidSymbolError "invalid symbol"))
        else (is3, this2, Returned)
    | failed => failed
    end.

(** [toStream]: the characters inserted. *)
Definition toStream (this : Point) : list ascii :=
  Char.text "( "
  ++ concat (map (fun c => num_put c ++ Char.text " ") this)
  ++ Char.text ")".

(** ** [print_max] *)

(** One block written to [cerr]. *)
Record report : Type := mk_report {
  category : string;
  reason : string;
  source_code_line : Z;
  reading_from : string;
  at_position : Z
}.

Record output : Type := mk_output {
  cerr : list report;
  cout : string
}.

(** [print_max] returns, or its behaviour is undefined, or it is still
    running when the fuel is spent. *)
Inductive run : Type :=
| Return (out : output)
| Undefined
| Running.

(** [while (infile.get() != '\n');] *)
Fixpoint discard_line (fuel : nat) (infile : istream) : option istream :=
  match fuel with
  | O => None
  | S fuel' =>
      let (infile1, c) := get infile in
      if c =? Char.code Char.newline then Some infile1
      else discard_line fuel' infile1
  end.

Definition found (filename : string) (pmax : Point) : string :=
  string_of_list_ascii
    (Char.text "the point furthest from " ++ toStream Point_default
     ++ Char.text " in " ++ Char.text filename
     ++ Char.text " is " ++ toStream pmax
     ++ [Char.newline; Char.newline]).

(** The [for (;;)] loop of [print_max]. After the handler of
    [InvalidSymbolError] control reaches [if (p > pmax)] as it does after
    a successful extraction. *)
Fixpoint scan (fuel : nat) (filename : string) (infile : istream)
    (p pmax : Point) (err : list report) : run :=
  match fuel with
  | O => Running
  | S fuel' =>
      let compare (infile' : istream) (p' : Point) (err' : list report) :=
        match gt p' pmax with
        | None => Undefined
        | Some true => scan fuel' filename infile' p' p' err'
        | Some false => scan fuel' filename infile' p' pmax err'
        end in
      match fromStream infile p with
      | (infile1, p1, Returned) => compare infile1 p1 err
      | (infile1, p1, Thrown (EmptyStreamError _)) =>
          Return {| cerr := err; cout := found filename pmax |}
      | (infile1, p1, Thrown (InvalidSymbolError d)) =>
          let (infile2, pos) := tellg infile1 in
          let err1 :=
            err ++ [mk_report "ignoring invalid element" d 48 filename pos] in
          match discard_line fuel' infile2 with
          | None => Running
          | Some infile3 => compare infile3 p1 err1
          end
      | (infile1, p1, Thrown (StdException d)) =>
          let (infile2, pos) := tellg infile1 in
          Return {| cerr :=
                      err ++ [mk_report "unable to recover" d 54 filename pos];
                    cout := EmptyString |}
      end
  end.

(** [print_max] on a file that holds [contents]. *)
Definition print_max (fuel : nat) (filename : string) (contents : list ascii)
  : run :=
  let infile := open contents in
  match fromStream infile Point_default with
  | (infile1, pmax, Thrown e) =>
      let (infile2, pos) := tellg infile1 in
      Return {| cerr := [mk_report "unable to read first element" (what e)
                           35 filename pos];
                cout := EmptyString |}
  | (infile1, pmax, Returned) =>
      scan fuel filename infile1 Point_default pmax []
  end.

End Point.

Arguments Point T : clear implicits.

(** ** What is said of a run of [fromStream] *)

Section Vocabulary.

Context {T : Type} `{Numeric T}.

Definition all_space (ws : list ascii) : Prop :=
  Forall (fun c => Char.isspace c = true) ws.

(** The opening marker is read: the stream after it. *)
Definition opening (s : istream) : option istream :=
  let (s0, c) := extract_char s Ascii.zero in
  if good s0 && Ascii.eqb c "(" then Some s0 else None.

(** [n] values are extracted, each leaving the stream good: the values,
    the stream and [temp] afterwards. *)
Fixpoint read_values (n : nat) (s : istream) (temp : T)
  : option (list T * istream * T) :=
  match n with
  | O => Some ([], s, temp)
  | S n' =>
      let (s1, temp1) := extract s temp in
      if good s1 then
        '(vs, s2, temp2) ← read_values n' s1 temp1;
        Some (temp1 :: vs, s2, temp2)
      else None
  end.

(** The components as [toStream] writes them, each followed by a space. *)
Definition components_text (vs : list T) : list ascii :=
  concat (map (fun c => num_put c ++ Char.text " ") vs).

End Vocabulary.

(** The value of a decimal field, digit by digit. *)
Definition decimal_step (a : Z) (c : ascii) : Z := a * 10 + Char.digit_value c.

(** A binary64 value that is zero, positive or [+inf]: not negative and
    not a NaN. *)
Definition SF_nonneg (x : spec_float) : Prop :=
  match x with
  | S754_zero _ => True
  | S754_infinity s | S754_finite s _ _ => s = false
  | S754_nan => False
  end.

(** [num_get] takes characters from the front of what it is given and
    adds none. *)
Definition consumes (T : Type) `{Numeric T} : Prop :=
  forall b, (length (num_get b).1.1 <= length b)%nat.

(** A block of [cerr] for a record the loop of [print_max] passed
    over. *)
Definition skipped_record (filename : string) (r : report) : Prop :=
  category r = "ignoring invalid element"%string /\
  source_code_line r = 48 /\ reading_from r = filename /\
  (reason r = "invalid symbol"%string \/
   reason r = "unable to read value"%string).

Section Records.

Context {T : Type} `{Numeric T}.

(** A record [print_max] can take in: of [SIZE] components that are read
    back as written, and at a distance from the zero point that is
    defined. *)
Definition sound_record (faithful : T -> Prop) (SIZE : nat) (p : Point T)
  : Prop :=
  length p = SIZE /\ Forall faithful p /\
  distance p (Point_default SIZE) <> None.

End Records.

Section Lines.

Context {T : Type} `{Numeric T}.

(** A line of a file: a record as [toStream] writes it, or other text. *)
Inductive line : Type :=
| Good (p : Point T)
| Bad (txt : list ascii).

Definition line_text (l : line) : list ascii :=
  match l with
  | Good p => toStream p ++ [Char.newline]
  | Bad txt => txt ++ [Char.newline]
  end.

Definition lines_text (ls : list line) : list ascii :=
  concat (map line_text ls).

Fixpoint good_points (ls : list line) : list (Point T) :=
  match ls with
  | Good p :: ls' => p :: good_points ls'
  | Bad _ :: ls' => good_points ls'
  | [] => []
  end.

Fixpoint bad_lines (ls : list line) : list (list ascii) :=
  match ls with
  | Good _ :: ls' => bad_lines ls'
  | Bad txt :: ls' => txt :: bad_lines ls'
  | [] => []
  end.

(** Text of one line whose first character that is no white space is not
    an opening parenthesis. *)
Definition rejected_at_opening (txt : list ascii) : Prop :=
  Forall (fun c => c <> Char.newline) txt /\
  exists c rest, skip_ws txt = c :: rest /\ c <> "("%char.

(** Text of one line that opens a record with, in place of its first
    value, a character that starts no [int]. *)
Definition unreadable_first_value (txt : list ascii) : Prop :=
  Forall (fun c => c <> Char.newline) txt /\
  exists t1 c t2,
    skip_ws txt = "("%char :: t1 /\ skip_ws t1 = c :: t2 /\
    Char.isdigit c = false /\ c <> "-"%char /\ c <> "+"%char.

(** The description of the exception such a line is rejected with. *)
Definition rejection (txt : list ascii) : string :=
  match skip_ws txt with
  | c :: _ =>
      if Ascii.eqb c "(" then "unable to read value"%string
      else "invalid symbol"%string
  | [] => "invalid symbol"%string
  end.

Definition sound_line (faithful : T -> Prop) (bad : list ascii -> Prop)
    (SIZE : nat) (l : line) : Prop :=
  match l with
  | Good p => sound_record faithful SIZE p
  | Bad txt => bad txt
  end.

End Lines.

Arguments line T : clear implicits.

(** ** Input files *)

(** The file of C1: a good record, then a record whose second component
    is no number. *)
Definition rejected_record_file : list ascii :=
  Char.text "( 1 1 )" ++ Char.newline :: Char.text "( 100 x )"
  ++ [Char.newline].

(** The file of C2: the last record is malformed and no newline follows
    it. *)
Definition unterminated_bad_line_file : list ascii :=
  Char.text "( 1 )" ++ Char.newline :: Char.text "( x )".

(** The file of C6: two records of one component, the second too large
    for its square to fit an [int]. *)
Definition large_component_file : list ascii :=
  Char.text "( 1 )" ++ Char.newline :: Char.text "( 46341 )"
  ++ [Char.newline].

(** Records of one component between lines that are no records. *)
Definition mixed_lines : list (line Z) :=
  [Bad (Char.text " 7 )"); Good [-4]; Bad (Char.text "( x )")].

(** * Properties *)

(** ** The model on small files *)

Example three_points_on_a_line :
  print_max (T:=Z) 2 10 "input-int-2.txt"
    (Char.text "( 1 2 ) ( -5 9 ) ( 3 3 )")
  = Return {| cerr := []; cout := found 2 "input-int-2.txt" [-5; 9] |}.
Proof. vm_compute. reflexivity. Qed.

Example bad_record_between_good_ones :
  print_max (T:=Z) 1 10 "input-int-1.txt"
    (Char.text "( 1 )" ++ Char.newline :: Char.text "( x )"
     ++ Char.newline :: Char.text "( 4 )")
  = Return {| cerr := [mk_report "ignoring invalid element"
                         "unable to read value" 48 "input-int-1.txt" 8];
              cout := found 1 "input-int-1.txt" [4] |}.
Proof. vm_compute. reflexivity. Qed.

Example empty_file :
  print_max (T:=Z) 1 10 "input-int-1.txt" []
  = Return {| cerr := [mk_report "unable to read first element"
                         "empty stream" 35 "input-int-1.txt" 0];
              cout := EmptyString |}.
Proof. vm_compute. reflexivity. Qed.

Example doubles_as_printed :
  print_max (T:=float) 2 10 "input-double-2.txt"
    (Char.text "( 1.5 2 )" ++ Char.newline
     :: Char.text "( -6.92889e+37 8.66612e+27 )" ++ [Char.newline])
  = Return {| cerr := [];
              cout := String.append
                "the point furthest from ( 0 0 ) in input-double-2.txt is ( -6.92889e+37 8.66612e+27 )"
                (string_of_list_ascii [Char.newline; Char.newline]) |}.
Proof. vm_compute. reflexivity. Qed.

Example found_text :
  found (T:=Z) 2 "f" [124; 92]
  = String.append "the point furthest from ( 0 0 ) in f is ( 124 92 )"
      (string_of_list_ascii [Char.newline; Char.newline]).
Proof. vm_compute. reflexivity. Qed.

(** ** Streams *)

Lemma not_good_setstate (eof : bool) (s : istream) :
  good (setstate eof true s) = false.
Proof.
  unfold good, setstate. simpl.
  rewrite orb_true_r. simpl. apply andb_false_r.
Qed.

Lemma good_advance (s : istream) (rest : list ascii) :
  good (advance s rest) = good s.
Proof. reflexivity. Qed.

Lemma skip_ws_all_space (ws : list ascii) :
  all_space ws <-> skip_ws ws = [].
Proof.
  unfold all_space. split.
  - induction 1 as [|c ws Hc _ IH]; simpl; [reflexivity|].
    rewrite Hc. exact IH.
  - induction ws as [|c ws IH]; simpl; intros Hs; [constructor|].
    destruct (Char.isspace c) eqn:Hc; [|discriminate].
    constructor; auto.
Qed.

Lemma skip_ws_stop (c : ascii) (b : list ascii) :
  Char.isspace c = false -> skip_ws (c :: b) = c :: b.
Proof. simpl. intros ->. reflexivity. Qed.

(** The sentry on a good stream. *)
Lemma sentry_good (s : istream) :
  good s = true ->
  sentry s =
    match skip_ws (buffer s) with
    | [] => (setstate true true (advance s []), false)
    | b => (advance s b, true)
    end.
Proof.
  intros Hg. unfold sentry. rewrite Hg. simpl.
  destruct (skip_ws (buffer s)); reflexivity.
Qed.

Lemma sentry_refused (s s1 : istream) :
  sentry s = (s1, false) -> good s1 = false.
Proof.
  unfold sentry. destruct (good s) eqn:Hg.
  - simpl. destruct (skip_ws (buffer s)); intros [= <-].
    apply not_good_setstate.
  - intros [= <-]. apply not_good_setstate.
Qed.

Lemma extract_char_end (s : istream) (c : ascii) :
  good s = true -> skip_ws (buffer s) = [] ->
  extract_char s c = (setstate true true (advance s []), c).
Proof.
  intros Hg Hb. unfold extract_char. rewrite (sentry_good _ Hg), Hb.
  reflexivity.
Qed.

Lemma extract_char_next (s : istream) (c x : ascii) (rest : list ascii) :
  good s = true -> skip_ws (buffer s) = x :: rest ->
  extract_char s c = (advance (advance s (x :: rest)) rest, x).
Proof.
  intros Hg Hb. unfold extract_char. rewrite (sentry_good _ Hg), Hb.
  reflexivity.
Qed.

Section Extraction.

Context {T : Type} `{Numeric T}.

Lemma extract_end (s : istream) (temp : T) :
  good s = true -> skip_ws (buffer s) = [] ->
  extract s temp = (setstate true true (advance s []), temp).
Proof.
  intros Hg Hb. unfold extract. rewrite (sentry_good _ Hg), Hb.
  reflexivity.
Qed.

Lemma extract_field (s : istream) (temp v : T) (c : ascii)
    (b rest : list ascii) (fail : bool) :
  good s = true -> skip_ws (buffer s) = c :: b ->
  num_get (c :: b) = (rest, fail, v) ->
  extract s temp =
    (setstate (bool_decide (rest = [])) fail
       (advance (advance s (c :: b)) rest), v).
Proof.
  intros Hg Hb Hn. unfold extract. rewrite (sentry_good _ Hg), Hb.
  simpl. rewrite Hn. reflexivity.
Qed.

(** An extraction that uses up the input does not leave the stream
    good. *)
Lemma extract_exhausts (s : istream) (temp : T) :
  buffer (extract s temp).1 = [] -> good (extract s temp).1 = false.
Proof.
  unfold extract. destruct (sentry s) as [s1 ok] eqn:Hs.
  destruct ok.
  - destruct (num_get (buffer s1)) as [[rest fail] v]. simpl.
    intros ->. unfold good, setstate. simpl.
    rewrite orb_true_r. reflexivity.
  - intros _. simpl. eapply sentry_refused, Hs.
Qed.

End Extraction.

(** ** [fromStream] *)

Section FromStream.

Context {T : Type} `{Numeric T}.
Variable SIZE : nat.

Implicit Types (s : istream) (p : Point T) (temp : T).

Lemma read_components_good n i s temp p :
  good s = true -> good (read_components n i s temp p).1.1 = true.
Proof.
  revert i s temp p. induction n as [|n IH]; simpl; intros i s temp p Hg.
  - exact Hg.
  - destruct (extract s temp) as [s1 temp1].
    destruct (good s1) eqn:Hg1; simpl; [apply IH, Hg1 | reflexivity].
Qed.

Lemma fromStream_good s p : good (fromStream SIZE s p).1.1 = true.
Proof.
  unfold fromStream.
  destruct (extract_char s Ascii.zero) as [s1 c].
  destruct (good s1) eqn:Hg1; simpl; [|reflexivity].
  destruct (Ascii.eqb c "("); simpl; [|exact Hg1].
  pose proof (read_components_good SIZE 0 s1 zero p Hg1) as Hg2.
  destruct (read_components SIZE 0 s1 zero p) as [[s2 p2] [|e]];
    simpl in *; [|exact Hg2].
  destruct (extract_char s2 c) as [s3 c'].
  destruct (good s3) eqn:Hg3; simpl; [|reflexivity].
  destruct (Ascii.eqb c' ")"); simpl; exact Hg3.
Qed.

(** The loop throws nothing but its own [InvalidSymbolError]; when it
    returns, it extracted [n] values. *)
Lemma read_components_outcome n i s temp p s' p' o :
  read_components n i s temp p = (s', p', o) ->
  match o with
  | Returned => exists vs temp', read_values n s temp = Some (vs, s', temp')
  | Thrown e => e = InvalidSymbolError "unable to read value"
  end.
Proof.
  revert i s temp p. induction n as [|n IH]; simpl; intros i s temp p.
  - intros [= <- <- <-]. eauto.
  - destruct (extract s temp) as [s1 temp1].
    destruct (good s1) eqn:Hg1; simpl.
    + intros Hr. apply IH in Hr. destruct o; [|exact Hr].
      destruct Hr as (vs & temp' & ->). simpl. eauto.
    + intros [= <- <- <-]. reflexivity.
Qed.

(** After [k] good extractions the loop has stored the [k] values from
    index [i] on and goes on with the rest. *)
Lemma read_components_values k n i s temp p vs s' temp' :
  read_values k s temp = Some (vs, s', temp') ->
  (i + k <= length p)%nat ->
  read_components (k + n) i s temp p =
  read_components n (i + k) s' temp' (take i p ++ vs ++ drop (i + k) p).
Proof.
  revert i s temp p vs. induction k as [|k IH]; simpl; intros i s temp p vs.
  - intros [= <- <- <-] _. rewrite Nat.add_0_r. simpl.
    now rewrite take_drop.
  - destruct (extract s temp) as [s1 temp1].
    destruct (good s1) eqn:Hg1; simpl; [|discriminate].
    destruct (read_values k s1 temp1) as [[[vs1 s2] temp2]|] eqn:Hk;
      simpl; [|discriminate].
    intros [= <- <- <-] Hlen.
    rewrite (IH (S i) s1 temp1 (<[i:=temp1]> p) vs1 Hk)
      by (rewrite length_insert; lia).
    replace (S i + k)%nat with (i + S k)%nat by lia.
    f_equal.
    rewrite (take_S_r _ i temp1)
      by (apply list_lookup_insert_eq; lia).
    rewrite take_insert_ge by lia.
    rewrite drop_insert_lt by lia.
    now rewrite <- app_assoc.
Qed.

Lemma opening_inv s s0 :
  opening s = Some s0 ->
  extract_char s Ascii.zero = (s0, "("%char) /\ good s0 = true.
Proof.
  unfold opening. destruct (extract_char s Ascii.zero) as [s1 c].
  destruct (good s1) eqn:Hg; simpl; [|discriminate].
  destruct (Ascii.eqb_spec c "("); [|discriminate].
  intros [= <-]. subst c. auto.
Qed.

Lemma fromStream_opened s s0 p :
  opening s = Some s0 ->
  fromStream SIZE s p =
    match read_components SIZE 0 s0 zero p with
    | (s2, p2, Returned) =>
        let (s3, c) := extract_char s2 "("%char in
        if negb (good s3)
        then (clear s3, p2, Thrown (EmptyStreamError "empty stream"))
        else if negb (Ascii.eqb c ")")
        then (s3, p2, Thrown (InvalidSymbolError "invalid symbol"))
        else (s3, p2, Returned)
    | failed => failed
    end.
Proof.
  intros Ho. apply opening_inv in Ho as [He Hg].
  unfold fromStream. rewrite He, Hg. reflexivity.
Qed.

Lemma fromStream_not_opened s p :
  opening s = None ->
  (fromStream SIZE s p).1.2 = p /\
  exists e, (fromStream SIZE s p).2 = Thrown e.
Proof.
  unfold opening, fromStream.
  destruct (extract_char s Ascii.zero) as [s1 c].
  destruct (good s1); simpl; [|eauto].
  destruct (Ascii.eqb c "("); simpl; [discriminate|eauto].
Qed.

Lemma read_values_good k s temp vs s' temp' :
  read_values k s temp = Some (vs, s', temp') ->
  good s = true -> good s' = true.
Proof.
  revert s temp vs s' temp'.
  induction k as [|k IH]; simpl; intros s temp vs s' temp'.
  - intros [= _ <- _]. auto.
  - destruct (extract s temp) as [s1 temp1].
    destruct (good s1) eqn:Hg1; simpl; [|discriminate].
    destruct (read_values k s1 temp1) as [[[vs1 s2] temp2]|] eqn:Hk;
      simpl; [|discriminate].
    intros [= _ <- _] _. eapply IH; eauto.
Qed.

Lemma read_values_length k s temp vs s' temp' :
  read_values k s temp = Some (vs, s', temp') -> length vs = k.
Proof.
  revert s temp vs s' temp'.
  induction k as [|k IH]; simpl; intros s temp vs s' temp'.
  - intros [= <- _ _]. reflexivity.
  - destruct (extract s temp) as [s1 temp1].
    destruct (good s1); simpl; [|discriminate].
    destruct (read_values k s1 temp1) as [[[vs1 s2] temp2]|] eqn:Hk;
      simpl; [|discriminate].
    intros [= <- _ _]. simpl. f_equal. eapply IH, Hk.
Qed.

(** The loop when the extraction of component [i] fails after [i] good
    ones. *)
Lemma read_components_stops i p s0 vs si ti :
  length p = SIZE -> (i < SIZE)%nat ->
  read_values i s0 zero = Some (vs, si, ti) ->
  good (extract si ti).1 = false ->
  read_components SIZE 0 s0 zero p =
    (clear (extract si ti).1, vs ++ drop i p,
     Thrown (InvalidSymbolError "unable to read value")).
Proof.
  intros Hlen Hi Hv Hbad.
  replace SIZE with (i + S (SIZE - S i))%nat at 1 by lia.
  rewrite (read_components_values i _ 0 s0 zero p vs si ti Hv) by lia.
  simpl. destruct (extract si ti) as [sf tf]. simpl in Hbad.
  rewrite Hbad. reflexivity.
Qed.

(** The loop when all [SIZE] extractions are good. *)
Lemma read_components_all p s0 vs sn tn :
  length p = SIZE ->
  read_values SIZE s0 zero = Some (vs, sn, tn) ->
  read_components SIZE 0 s0 zero p = (sn, vs, Returned).
Proof.
  intros Hlen Hv.
  replace SIZE with (SIZE + 0)%nat at 1 by lia.
  rewrite (read_components_values SIZE 0 0 s0 zero p vs sn tn Hv) by lia.
  simpl. rewrite drop_ge by lia. now rewrite app_nil_r.
Qed.

End FromStream.

(** ** Failures of [fromStream] *)

Section Failures.

Context {T : Type} `{Numeric T}.
Variable SIZE : nat.

Implicit Types (s : istream) (p : Point T).

(** C10: whenever [fromStream] throws, the stream it leaves is good
    again: the flags a failed read set were cleared before the throw. *)
Theorem fromStream_failure_leaves_good s p s' p' e :
  fromStream SIZE s p = (s', p', Thrown e) -> good s' = true.
Proof.
  intros Hf. pose proof (fromStream_good SIZE s p) as Hg.
  rewrite Hf in Hg. exact Hg.
Qed.

(** C8: on an input that is just an opening parenthesis followed by
    white space, [fromStream] throws [InvalidSymbolError] with the
    description "unable to read value" (for a point of at least one
    component), and stores nothing. *)
Theorem fromStream_only_open (ws : list ascii) p :
  (0 < SIZE)%nat -> all_space ws ->
  (fromStream SIZE (open ("("%char :: ws)) p).2
    = Thrown (InvalidSymbolError "unable to read value")
  /\ (fromStream SIZE (open ("("%char :: ws)) p).1.2 = p.
Proof.
  intros Hpos Hws. apply skip_ws_all_space in Hws.
  assert (Ho : opening (open ("("%char :: ws))
               = Some (advance (advance (open ("("%char :: ws))
                                  ("("%char :: ws)) ws)).
  { unfold opening.
    rewrite (extract_char_next _ _ "("%char ws) by reflexivity.
    reflexivity. }
  rewrite (fromStream_opened SIZE _ _ p Ho).
  destruct SIZE as [|n]; [lia|]. simpl read_components.
  rewrite extract_end by (reflexivity || exact Hws).
  simpl. auto.
Qed.

(** C9: [fromStream] is not atomic on the point. When the extraction of
    component [i] fails after [i] good ones, the point holds the [i] new
    values followed by its old components from [i] on; when the opening
    parenthesis is not read, the point is as it was. *)
Theorem fromStream_not_atomic s p (Hlen : length p = SIZE) :
  (forall s0 i vs si ti,
      opening s = Some s0 -> (i < SIZE)%nat ->
      read_values i s0 zero = Some (vs, si, ti) ->
      good (extract si ti).1 = false ->
      (fromStream SIZE s p).1.2 = vs ++ drop i p /\
      (forall j, (j < i)%nat -> (fromStream SIZE s p).1.2 !! j = vs !! j) /\
      (forall j, (i <= j)%nat -> (fromStream SIZE s p).1.2 !! j = p !! j) /\
      (fromStream SIZE s p).2
        = Thrown (InvalidSymbolError "unable to read value"))
  /\ (opening s = None ->
      (fromStream SIZE s p).1.2 = p /\
      exists e, (fromStream SIZE s p).2 = Thrown e).
Proof.
  split.
  - intros s0 i vs si ti Ho Hi Hv Hbad.
    pose proof (read_values_length _ _ _ _ _ _ Hv) as Hvs.
    rewrite (fromStream_opened SIZE _ _ p Ho).
    rewrite (read_components_stops SIZE i p s0 vs si ti Hlen Hi Hv Hbad).
    simpl. repeat split.
    + intros j Hj. apply lookup_app_l. lia.
    + intros j Hj. rewrite lookup_app_r by lia.
      rewrite lookup_drop. f_equal. lia.
  - apply fromStream_not_opened.
Qed.

(** C4, as the code has it: input that ends while a component is read
    makes [fromStream] throw [InvalidSymbolError] "unable to read value";
    input that ends where the closing parenthesis is due, after all
    [SIZE] components were read, makes it throw [EmptyStreamError], as
    does input that ends before the opening parenthesis; and
    [EmptyStreamError] is thrown in these two places only. *)
Theorem fromStream_truncated s p
    (Hlen : length p = SIZE) (Hgood : good s = true) :
  (skip_ws (buffer s) = [] ->
   (fromStream SIZE s p).2 = Thrown (EmptyStreamError "empty stream"))
  /\ (forall s0 i vs si ti,
      opening s = Some s0 -> (i < SIZE)%nat ->
      read_values i s0 zero = Some (vs, si, ti) ->
      buffer (extract si ti).1 = [] ->
      (fromStream SIZE s p).2
        = Thrown (InvalidSymbolError "unable to read value"))
  /\ (forall s0 vs sn tn,
      opening s = Some s0 ->
      read_values SIZE s0 zero = Some (vs, sn, tn) ->
      skip_ws (buffer sn) = [] ->
      (fromStream SIZE s p).2 = Thrown (EmptyStreamError "empty stream"))
  /\ (forall d,
      (fromStream SIZE s p).2 = Thrown (EmptyStreamError d) ->
      skip_ws (buffer s) = [] \/
      exists s0 vs sn tn,
        opening s = Some s0 /\
        read_values SIZE s0 zero = Some (vs, sn, tn) /\
        skip_ws (buffer sn) = []).
Proof.
  split; [|split; [|split]].
  - intros Hb. unfold fromStream.
    rewrite (extract_char_end _ _ Hgood Hb), not_good_setstate.
    reflexivity.
  - intros s0 i vs si ti Ho Hi Hv Hend.
    apply extract_exhausts in Hend.
    rewrite (fromStream_opened SIZE _ _ p Ho).
    now rewrite (read_components_stops SIZE i p s0 vs si ti Hlen Hi Hv Hend).
  - intros s0 vs sn tn Ho Hv Hend.
    rewrite (fromStream_opened SIZE _ _ p Ho).
    rewrite (read_components_all SIZE p s0 vs sn tn Hlen Hv).
    assert (Hgn : good sn = true).
    { eapply read_values_good; [exact Hv|].
      apply opening_inv in Ho. tauto. }
    rewrite (extract_char_end _ _ Hgn Hend), not_good_setstate.
    reflexivity.
  - intros d. destruct (skip_ws (buffer s)) as [|x rest] eqn:Hb; [auto|].
    destruct (opening s) as [s0|] eqn:Ho.
    + rewrite (fromStream_opened SIZE _ _ p Ho).
      destruct (read_components SIZE 0 s0 zero p) as [[s2 p2] o] eqn:Hr.
      apply read_components_outcome in Hr. destruct o as [|e].
      * destruct Hr as (vs & temp' & Hv).
        assert (Hg2 : good s2 = true).
        { eapply read_values_good; [exact Hv|].
          apply opening_inv in Ho. tauto. }
        destruct (skip_ws (buffer s2)) as [|y rest2] eqn:Hb2.
        -- intros _. right. exists s0, vs, s2, temp'. auto.
        -- rewrite (extract_char_next _ _ y rest2 Hg2 Hb2).
           rewrite good_advance, good_advance, Hg2. simpl.
           destruct (Ascii.eqb y ")"); discriminate.
      * subst e. discriminate.
    + unfold opening, fromStream in *.
      rewrite (extract_char_next _ _ x rest Hgood Hb) in *.
      rewrite !good_advance, Hgood in *. simpl in *.
      destruct (Ascii.eqb x "("); discriminate.
Qed.

End Failures.

(** *** On [Point<int,SIZE>] *)

Lemma fromStream_failure_leaves_good_witness :
  fromStream 1 (open (Char.text "( x )")) [7]
    = ({| buffer := Char.text "x )"; offset := 2;
          eofbit := false; failbit := false |},
       [7], Thrown (InvalidSymbolError "unable to read value"))
  /\ good {| buffer := Char.text "x )"; offset := 2;
             eofbit := false; failbit := false |} = true.
Proof.
  split; [reflexivity|].
  apply (fromStream_failure_leaves_good 1 (open (Char.text "( x )")) [7]
           _ [7] (InvalidSymbolError "unable to read value")).
  reflexivity.
Defined.

Lemma fromStream_only_open_witness :
  (0 < 2)%nat /\ all_space (Char.text " ") /\
  (fromStream 2 (open (Char.text "( ")) [0; 0]).2
    = Thrown (InvalidSymbolError "unable to read value").
Proof.
  assert (Hws : all_space (Char.text " ")) by (repeat constructor).
  split; [lia|]. split; [exact Hws|].
  apply (fromStream_only_open (T:=Z) 2 (Char.text " ") [0; 0]); [lia|exact Hws].
Defined.

Lemma fromStream_not_atomic_witness :
  length [1; 2; 3] = 3%nat /\
  (fromStream 3 (open (Char.text "( 7 8 x )")) [1; 2; 3]).1.2 = [7; 8; 3].
Proof.
  split; [reflexivity|].
  pose proof (fromStream_not_atomic 3 (open (Char.text "( 7 8 x )"))
                [1; 2; 3] eq_refl) as [Hi _].
  refine (proj1 (Hi _ 2%nat [7; 8] _ _ _ _ _ _)); try reflexivity. lia.
Defined.

Lemma fromStream_truncated_witness :
  length [0] = 1%nat /\ good (open (Char.text "( 1 ")) = true /\
  (fromStream 1 (open (Char.text "( 1 ")) [0]).2
    = Thrown (EmptyStreamError "empty stream").
Proof.
  split; [reflexivity|]. split; [reflexivity|].
  pose proof (fromStream_truncated 1 (open (Char.text "( 1 ")) [0]
                eq_refl eq_refl) as (_ & _ & Hclose & _).
  refine (Hclose _ [1] _ _ _ _ _); reflexivity.
Defined.

(** C4 as stated fails: on ["( 1 "] the opening parenthesis and the one
    component of a [Point<int,1>] are read and stored, the input ends where
    the closing parenthesis is due, and [fromStream] throws
    [EmptyStreamError], not [InvalidSymbolError]. *)
Lemma truncated_at_close_throws_empty_stream :
  fromStream 1 (open (Char.text "( 1 ")) [0]
    = ({| buffer := []; offset := 4; eofbit := false; failbit := false |},
       [1], Thrown (EmptyStreamError "empty stream"))
  /\ forall d, (fromStream 1 (open (Char.text "( 1 ")) [0]).2
               <> Thrown (InvalidSymbolError d).
Proof.
  split; [reflexivity|]. intros d. discriminate.
Qed.

(** ** Decimal fields *)

Lemma digit_cases (d : Z) :
  0 <= d <= 9 ->
  d = 0 \/ d = 1 \/ d = 2 \/ d = 3 \/ d = 4 \/
  d = 5 \/ d = 6 \/ d = 7 \/ d = 8 \/ d = 9.
Proof. lia. Qed.

Lemma digit_is_digit (d : Z) :
  0 <= d <= 9 ->
  Char.isdigit (Char.digit d) = true /\ Char.digit_value (Char.digit d) = d.
Proof.
  intros Hd. destruct (digit_cases d Hd) as [-> | Hd'];
    repeat (destruct Hd' as [-> | Hd']); try subst d; split; reflexivity.
Qed.

(** A digit is neither white space nor a sign. *)
Lemma isdigit_plain (c : ascii) :
  Char.isdigit c = true ->
  Char.isspace c = false /\ Ascii.eqb c "-" = false /\ Ascii.eqb c "+" = false.
Proof.
  unfold Char.isdigit, Char.isspace. intros Hc.
  apply andb_true_iff in Hc as [Hlo Hhi].
  apply Z.leb_le in Hlo, Hhi.
  repeat split.
  - apply orb_false_iff. split; [apply Z.eqb_neq; lia|].
    apply andb_false_iff. right. apply Z.leb_gt. lia.
  - destruct (Ascii.eqb_spec c "-"); [subst c|reflexivity].
    vm_compute in Hlo. now destruct Hlo.
  - destruct (Ascii.eqb_spec c "+"); [subst c|reflexivity].
    vm_compute in Hlo. now destruct Hlo.
Qed.

Lemma get_digits_app (ds rest : list ascii) (acc : Z) (seen : nat) :
  Forall (fun c => Char.isdigit c = true) ds ->
  Int.get_digits (ds ++ rest) acc seen =
  Int.get_digits rest (fold_left decimal_step ds acc) (seen + length ds).
Proof.
  intros Hds. revert acc seen.
  induction Hds as [|c ds Hc _ IH]; intros acc seen; simpl.
  - now rewrite Nat.add_0_r.
  - rewrite Hc, IH. f_equal. lia.
Qed.

Lemma get_digits_stop (c : ascii) (rest : list ascii) (acc : Z) (seen : nat) :
  Char.isdigit c = false ->
  Int.get_digits (c :: rest) acc seen = (acc, seen, c :: rest).
Proof. simpl. now intros ->. Qed.

Lemma decimal_aux_spec (fuel : nat) (n : Z) (acc : list ascii) :
  0 <= n < 2 ^ (Z.of_nat fuel + 1) ->
  exists ds,
    Int.decimal_aux fuel n acc = ds ++ acc /\ ds <> [] /\
    Forall (fun c => Char.isdigit c = true) ds /\
    forall a, fold_left decimal_step ds a = a * 10 ^ Z.of_nat (length ds) + n.
Proof.
  assert (Hone : forall m, 0 <= m < 10 ->
    [Char.digit (m mod 10)] <> [] /\
    Forall (fun c => Char.isdigit c = true) [Char.digit (m mod 10)] /\
    forall a, fold_left decimal_step [Char.digit (m mod 10)] a
              = a * 10 ^ Z.of_nat 1 + m).
  { intros m Hm. rewrite Z.mod_small by lia.
    destruct (digit_is_digit m) as [Hd Hv]; [lia|].
    repeat split; [discriminate | repeat constructor; exact Hd |].
    intros a. simpl. unfold decimal_step. rewrite Hv. lia. }
  revert n acc. induction fuel as [|fuel IH]; intros n acc Hn.
  - simpl in *. exists [Char.digit (n mod 10)].
    split; [reflexivity|]. apply Hone. lia.
  - simpl Int.decimal_aux. destruct (n <? 10) eqn:Hlt.
    + apply Z.ltb_lt in Hlt. exists [Char.digit (n mod 10)].
      split; [reflexivity|]. apply Hone. lia.
    + apply Z.ltb_ge in Hlt.
      assert (Hpow : 2 ^ (Z.of_nat (S fuel) + 1) = 2 * 2 ^ (Z.of_nat fuel + 1)).
      { replace (Z.of_nat (S fuel) + 1) with (Z.succ (Z.of_nat fuel + 1)) by lia.
        apply Z.pow_succ_r. lia. }
      destruct (IH (n / 10) (Char.digit (n mod 10) :: acc)) as (ds & He & _ & Hds & Hf).
      { split; [apply Z.div_pos; lia|].
        apply Z.div_lt_upper_bound; lia. }
      exists (ds ++ [Char.digit (n mod 10)]).
      destruct (digit_is_digit (n mod 10)) as [Hd Hv].
      { pose proof (Z.mod_pos_bound n 10). lia. }
      split; [rewrite He, <- app_assoc; reflexivity|].
      split; [destruct ds; discriminate|].
      split; [apply Forall_app; split; [exact Hds | repeat constructor; exact Hd]|].
      intros a. rewrite fold_left_app, Hf, length_app. simpl.
      unfold decimal_step. rewrite Hv.
      replace (Z.of_nat (length ds + 1)) with (Z.succ (Z.of_nat (length ds))) by lia.
      rewrite Z.pow_succ_r by lia.
      pose proof (Z.div_mod n 10). lia.
Qed.

Lemma decimal_spec (n : Z) :
  0 <= n ->
  Int.decimal n <> [] /\
  Forall (fun c => Char.isdigit c = true) (Int.decimal n) /\
  forall a, fold_left decimal_step (Int.decimal n) a
            = a * 10 ^ Z.of_nat (length (Int.decimal n)) + n.
Proof.
  intros Hn. unfold Int.decimal.
  destruct (decimal_aux_spec (Z.to_nat (Z.log2 n)) n []) as (ds & He & Hne & Hds & Hf).
  { split; [exact Hn|]. rewrite Z2Nat.id by apply Z.log2_nonneg.
    destruct (Z.eq_dec n 0) as [->|Hnz]; [reflexivity|].
    replace (Z.log2 n + 1) with (Z.succ (Z.log2 n)) by lia.
    apply Z.log2_spec. lia. }
  rewrite He, app_nil_r. auto.
Qed.

(** [num_get] reads back what [num_put] wrote for an [int], up to the
    first character that is no digit. *)
Lemma int_get_put (v : Z) (c : ascii) (rest : list ascii) :
  Int.in_range v -> Char.isdigit c = false ->
  Int.get (Int.put v ++ c :: rest) = (c :: rest, false, v).
Proof.
  intros Hv Hc. unfold Int.in_range, Int.min, Int.max in Hv.
  assert (Hread : forall n, 0 <= n ->
    Int.get_digits (Int.decimal n ++ c :: rest) 0 0
    = (n, length (Int.decimal n), c :: rest) /\ length (Int.decimal n) <> O).
  { intros n Hn. destruct (decimal_spec n Hn) as (Hne & Hds & Hf).
    rewrite (get_digits_app _ _ _ _ Hds), Hf, (get_digits_stop _ _ _ _ Hc).
    split; [repeat f_equal; lia|]. destruct (Int.decimal n); [congruence|discriminate]. }
  unfold Int.get, Int.put. destruct (v <? 0) eqn:Hneg.
  - apply Z.ltb_lt in Hneg. simpl.
    destruct (Hread (- v)) as [-> Hlen]; [lia|].
    destruct (length (Int.decimal (- v))); [congruence|].
    rewrite Z.opp_involutive.
    replace (v <? Int.min) with false
      by (symmetry; apply Z.ltb_ge; unfold Int.min; lia).
    replace (Int.max <? v) with false
      by (symmetry; apply Z.ltb_ge; unfold Int.max; lia).
    reflexivity.
  - apply Z.ltb_ge in Hneg.
    destruct (decimal_spec v Hneg) as (Hne & Hds & _).
    destruct (Hread v Hneg) as [Hr Hlen].
    destruct (Int.decimal v) as [|d ds] eqn:Hd; [congruence|].
    apply Forall_cons in Hds as [Hdd _].
    destruct (isdigit_plain d Hdd) as (_ & Hm & Hp).
    simpl app. unfold Int.get_sign. rewrite Hm, Hp.
    simpl app in Hr. rewrite Hr.
    simpl length.
    replace (v <? Int.min) with false
      by (symmetry; apply Z.ltb_ge; unfold Int.min; lia).
    replace (Int.max <? v) with false
      by (symmetry; apply Z.ltb_ge; unfold Int.max; lia).
    reflexivity.
Qed.

Lemma int_put_head (v : Z) :
  exists c cs, Int.put v = c :: cs /\ Char.isspace c = false.
Proof.
  unfold Int.put. destruct (v <? 0) eqn:Hneg.
  - exists "-"%char, (Int.decimal (- v)). split; reflexivity.
  - apply Z.ltb_ge in Hneg.
    destruct (decimal_spec v Hneg) as (Hne & Hds & _).
    destruct (Int.decimal v) as [|d ds]; [congruence|].
    apply Forall_cons in Hds as [Hdd _].
    exists d, ds. split; [reflexivity|]. apply (isdigit_plain d Hdd).
Qed.

(** ** [toStream] then [fromStream] *)

Section RoundTrip.

Context {T : Type} `{Numeric T}.
Variable SIZE : nat.

(** The values [num_get] reads back as [num_put] wrote them. *)
Variable faithful : T -> Prop.

Hypothesis get_put : forall v rest,
  faithful v ->
  num_get (num_put v ++ " "%char :: rest) = (" "%char :: rest, false, v).

Hypothesis put_head : forall v,
  faithful v -> exists c cs, num_put v = c :: cs /\ Char.isspace c = false.

Lemma read_values_text (vs : list T) (s : istream) (temp : T)
    (tail : list ascii) :
  Forall faithful vs -> good s = true ->
  buffer s = " "%char :: components_text vs ++ tail ->
  exists s' temp',
    read_values (length vs) s temp = Some (vs, s', temp') /\
    good s' = true /\ buffer s' = " "%char :: tail.
Proof.
  intros Hvs. revert s temp.
  induction Hvs as [|v vs Hv _ IH]; intros s temp Hg Hb.
  - exists s, temp. auto.
  - destruct (put_head v Hv) as (c & cs & Hput & Hc).
    assert (Hb' : buffer s
              = " "%char :: (c :: cs) ++ " "%char :: components_text vs ++ tail).
    { rewrite Hb, <- Hput. unfold components_text. simpl.
      now rewrite <- !app_assoc. }
    assert (Hskip : skip_ws (buffer s)
              = c :: cs ++ " "%char :: components_text vs ++ tail).
    { rewrite Hb'. change (skip_ws (?x :: ?l)) with (skip_ws l) at 1.
      simpl app. now apply skip_ws_stop. }
    pose proof (get_put v (components_text vs ++ tail) Hv) as Hget.
    rewrite Hput in Hget. simpl app in Hget.
    pose proof (extract_field s temp v c _ _ false Hg Hskip Hget) as He.
    simpl length. simpl read_values. rewrite He.
    destruct (IH (setstate false false
                    (advance (advance s (c :: cs ++ " "%char :: components_text vs ++ tail))
                       (" "%char :: components_text vs ++ tail))) v)
      as (s' & temp' & Hr & Hg' & Hb2).
    { unfold good. simpl. rewrite !orb_false_r. exact Hg. }
    { reflexivity. }
    assert (Hgs : good (setstate (bool_decide (" "%char :: components_text vs ++ tail = [])) false
                    (advance (advance s (c :: cs ++ " "%char :: components_text vs ++ tail))
                       (" "%char :: components_text vs ++ tail))) = true).
    { unfold good. simpl. rewrite !orb_false_r. exact Hg. }
    rewrite Hgs. simpl in Hr |- *. rewrite Hr. simpl. eauto.
Qed.

(** What [toStream] writes, [fromStream] reads back into any point, and
    leaves what follows. *)
Lemma fromStream_toStream (p p0 : Point T) (rest : list ascii) :
  length p = SIZE -> length p0 = SIZE -> Forall faithful p ->
  (fromStream SIZE (open (toStream p ++ rest)) p0).1.2 = p /\
  (fromStream SIZE (open (toStream p ++ rest)) p0).2 = Returned /\
  buffer (fromStream SIZE (open (toStream p ++ rest)) p0).1.1 = rest.
Proof.
  intros Hlen Hlen0 Hp.
  set (body := " "%char :: components_text p ++ ")"%char :: rest).
  assert (Htxt : toStream p ++ rest = "("%char :: body).
  { unfold toStream, body, components_text. simpl.
    now rewrite <- !app_assoc. }
  rewrite Htxt.
  set (s0 := advance (advance (open ("("%char :: body)) ("("%char :: body)) body).
  assert (Ho : opening (open ("("%char :: body)) = Some s0).
  { unfold opening.
    now rewrite (extract_char_next _ _ "("%char body) by reflexivity. }
  rewrite (fromStream_opened SIZE _ _ p0 Ho).
  destruct (read_values_text p s0 zero (")"%char :: rest) Hp)
    as (sn & tn & Hr & Hgn & Hbn); [reflexivity | reflexivity |].
  rewrite Hlen in Hr.
  rewrite (read_components_all SIZE p0 s0 p sn tn Hlen0 Hr).
  rewrite (extract_char_next sn _ ")"%char rest Hgn)
    by (rewrite Hbn; reflexivity).
  rewrite !good_advance, Hgn. simpl. auto.
Qed.

End RoundTrip.

(** C5, for integral components: what [toStream] writes for a
    [Point<int,SIZE>] is read back by [fromStream] as the same point,
    whatever the point read into held and whatever follows the text. *)
Theorem roundtrip_int (SIZE : nat) (p p0 : Point Z) (rest : list ascii) :
  length p = SIZE -> length p0 = SIZE -> Forall Int.in_range p ->
  (fromStream SIZE (open (toStream p ++ rest)) p0).1.2 = p /\
  (fromStream SIZE (open (toStream p ++ rest)) p0).2 = Returned /\
  buffer (fromStream SIZE (open (toStream p ++ rest)) p0).1.1 = rest.
Proof.
  apply (fromStream_toStream SIZE Int.in_range).
  - intros v rest' Hv. now apply int_get_put.
  - intros v _. apply int_put_head.
Qed.

Lemma roundtrip_int_witness :
  length [-2147483648; 0; 2147483647] = 3%nat /\
  length [1; 2; 3] = 3%nat /\
  Forall Int.in_range [-2147483648; 0; 2147483647] /\
  (fromStream 3 (open (toStream [-2147483648; 0; 2147483647] ++ []))
     [1; 2; 3]).1.2 = [-2147483648; 0; 2147483647].
Proof.
  assert (Hr : Forall Int.in_range [-2147483648; 0; 2147483647])
    by (repeat constructor; vm_compute; discriminate).
  split; [reflexivity|]. split; [reflexivity|]. split; [exact Hr|].
  apply (roundtrip_int 3 [-2147483648; 0; 2147483647] [1; 2; 3] []
           eq_refl eq_refl Hr).
Defined.

(** C5 as stated fails for floating-point components: [toStream] writes a
    [double] with six significant digits, so the [Point<double,1>] holding
    1234567 is written as ["( 1.23457e+06 )"] and read back as the point
    holding 1234570. *)
Lemma roundtrip_double_fails :
  toStream [1234567%float] = Char.text "( 1.23457e+06 )" /\
  fromStream 1 (open (toStream [1234567%float])) [0%float]
    = ({| buffer := []; offset := 15; eofbit := false; failbit := false |},
       [1234570%float], Returned) /\
  (fromStream 1 (open (toStream [1234567%float])) [0%float]).1.2
    <> [1234567%float].
Proof.
  split; [vm_compute; reflexivity|].
  split; [vm_compute; reflexivity|].
  intros Heq.
  assert (Hb : PrimFloat.eqb 1234570%float 1234567%float = true).
  { change (match (fromStream 1 (open (toStream [1234567%float])) [0%float]).1.2 with
            | x :: _ => PrimFloat.eqb x 1234567%float
            | [] => false
            end = true).
    rewrite Heq. vm_compute. reflexivity. }
  vm_compute in Hb. discriminate.
Qed.

(** ** [distance] and [operator>] *)

Lemma SFcompare_Eq_sym (x y : spec_float) :
  SFcompare x y = Some Eq -> SFcompare y x = Some Eq.
Proof.
  destruct x as [sx|sx| |sx mx ex], y as [sy|sy| |sy my ey]; simpl;
    try discriminate; try reflexivity;
    try (destruct sx; discriminate); try (destruct sy; discriminate).
  - destruct sx, sy; (discriminate || reflexivity).
  - change (PosDef.Pos.compare_cont Eq mx my) with (Pos.compare mx my).
    change (PosDef.Pos.compare_cont Eq my mx) with (Pos.compare my mx).
    destruct sx, sy; try discriminate;
      destruct (ex ?= ey) eqn:He; try discriminate;
      apply Z.compare_eq in He; subst ey; rewrite Z.compare_refl;
      destruct (mx ?= my)%positive eqn:Hm; try discriminate;
      apply Pos.compare_eq in Hm; subst my; now rewrite Pos.compare_refl.
Qed.

Lemma SFcompare_irrefl (x : spec_float) : SFcompare x x <> Some Lt.
Proof.
  destruct x as [sx|sx| |sx mx ex]; simpl; try discriminate.
  - destruct sx; discriminate.
  - change (PosDef.Pos.compare_cont Eq mx mx) with (Pos.compare mx mx).
    rewrite Z.compare_refl, Pos.compare_refl. destruct sx; discriminate.
Qed.

(** Doubles that compare equal are not ordered by [<], either way. *)
Lemma double_eq_not_lt (a b : float) :
  PrimFloat.eqb a b = true ->
  PrimFloat.ltb a b = false /\ PrimFloat.ltb b a = false.
Proof.
  rewrite FloatAxioms.eqb_spec, !FloatAxioms.ltb_spec. unfold SFeqb, SFltb.
  destruct (SFcompare (Prim2SF a) (Prim2SF b)) as [[| |]|] eqn:Hc;
    try discriminate.
  intros _. now rewrite (SFcompare_Eq_sym _ _ Hc).
Qed.

Lemma double_lt_irrefl (a : float) : PrimFloat.ltb a a = false.
Proof.
  rewrite FloatAxioms.ltb_spec. unfold SFltb.
  pose proof (SFcompare_irrefl (Prim2SF a)) as Hc.
  destruct (SFcompare (Prim2SF a) (Prim2SF a)) as [[| |]|];
    congruence.
Qed.

Section Order.

Context {T : Type} `{Numeric T}.
Variable SIZE : nat.

(** C7: two points at the same distance from the zero point are not
    ordered by [operator>], either way; in particular no point is greater
    than itself. *)
Theorem gt_strict (p q : Point T) (dp dq : float) :
  distance p (Point_default SIZE) = Some dp ->
  distance q (Point_default SIZE) = Some dq ->
  dp = dq \/ PrimFloat.eqb dp dq = true ->
  gt SIZE p q = Some false /\ gt SIZE q p = Some false.
Proof.
  intros Hp Hq Heq. unfold gt. rewrite Hp, Hq. simpl.
  destruct Heq as [<- | Heq].
  - now rewrite double_lt_irrefl.
  - destruct (double_eq_not_lt dp dq Heq) as [-> ->]. auto.
Qed.

End Order.

Lemma gt_strict_witness :
  distance [3; 4] (Point_default 2) = Some 5%float /\
  distance [-5; 0] (Point_default 2) = Some 5%float /\
  PrimFloat.eqb 5 5 = true /\
  gt 2 [3; 4] [-5; 0] = Some false /\ gt 2 [-5; 0] [3; 4] = Some false.
Proof.
  split; [reflexivity|]. split; [reflexivity|]. split; [reflexivity|].
  apply (gt_strict 2 [3; 4] [-5; 0] 5%float 5%float);
    [reflexivity | reflexivity | right; reflexivity].
Defined.

(** The [int] accumulator holds the exact sum of the squared differences
    as long as [distance] is defined. *)
Lemma sum_of_squares_int (p q : Point Z) (sum r : Z) :
  sum_of_squares p q sum = Some r ->
  r = fold_left Z.add (zip_with (fun a b => (a - b) * (a - b)) p q) sum.
Proof.
  revert q sum. induction p as [|a p IH]; intros [|b q] sum; simpl;
    try (intros [= <-]; reflexivity).
  unfold Int.add_squared_difference.
  destruct (Int.fits (a - b)); simpl; [|discriminate].
  destruct (Int.fits (sum + (a - b) * (a - b))); simpl; [|discriminate].
  apply IH.
Qed.

Lemma distance_zero_int (n : nat) :
  distance (Point_default (T:=Z) n) (Point_default n) = Some 0%float.
Proof.
  unfold distance.
  assert (Hs : sum_of_squares (Point_default (T:=Z) n) (Point_default n) 0
               = Some 0).
  { unfold Point_default. induction n as [|n IH]; simpl; [reflexivity|exact IH]. }
  simpl zero. rewrite Hs. reflexivity.
Qed.

(** C3 fails on [Point<int,1>]: the sum is kept in an [int], so for the
    points [( 50000 )] and [( 0 )] the square 2500000000 does not fit,
    the conversion is undefined and [distance] yields no value, where the
    claim has 50000. *)
Theorem distance_int_accumulator_overflows :
  distance [50000] [0] = None /\
  Int.add_squared_difference 0 50000 0 = None /\
  PrimFloat.sqrt (Int.to_double (50000 * 50000)) = 50000%float.
Proof. repeat split; reflexivity. Qed.

(** ** [print_max] *)

Lemma code_newline (c : ascii) :
  Char.code c = Char.code Char.newline -> c = Char.newline.
Proof.
  unfold Char.code. intros Hc. apply N2Z.inj in Hc.
  rewrite <- (ascii_N_embedding c), Hc. apply ascii_N_embedding.
Qed.

(** With no newline left in the input, the loop that discards the rest
    of the line does not end: once the input is used up, [get] returns
    [eof] each time, which is not a newline either. *)
Lemma discard_line_no_newline (fuel : nat) (s : istream) :
  Forall (fun c => c <> Char.newline) (buffer s) ->
  discard_line fuel s = None.
Proof.
  revert s. induction fuel as [|fuel IH]; intros s Hb; [reflexivity|].
  simpl. unfold get. destruct (good s).
  - destruct (buffer s) as [|x rest] eqn:Hbuf.
    + simpl. apply IH. simpl. rewrite Hbuf. constructor.
    + apply Forall_cons in Hb as [Hx Hrest].
      destruct (Z.eqb_spec (Char.code x) (Char.code Char.newline)) as [He|_].
      * apply code_newline in He. contradiction.
      * apply IH. exact Hrest.
  - simpl. apply IH. exact Hb.
Qed.

(** With a newline left, it ends just after the first one. *)
Lemma discard_line_newline (s : istream) (line rest : list ascii) :
  good s = true -> buffer s = line ++ Char.newline :: rest ->
  Forall (fun c => c <> Char.newline) line ->
  exists s', discard_line (S (length line)) s = Some s' /\
             buffer s' = rest /\ good s' = true.
Proof.
  intros Hg Hb Hline. revert s Hg Hb.
  induction Hline as [|x line Hx _ IH]; intros s Hg Hb.
  - simpl. unfold get. rewrite Hg, Hb. simpl.
    eexists. split; [reflexivity|]. auto.
  - change (length (x :: line)) with (S (length line)).
    remember (S (length line)) as n. simpl. unfold get. rewrite Hg, Hb. simpl.
    destruct (Z.eqb_spec (Char.code x) (Char.code Char.newline)) as [He|_].
    + apply code_newline in He. contradiction.
    + subst n. apply IH; [exact Hg | reflexivity].
Qed.

Lemma discard_line_mono (n m : nat) (s s' : istream) :
  discard_line n s = Some s' -> (n <= m)%nat -> discard_line m s = Some s'.
Proof.
  revert m s. induction n as [|n IH]; intros m s; [discriminate|].
  intros Hd Hm. destruct m as [|m]; [lia|]. simpl in *.
  destruct (get s) as [s1 c]. destruct (c =? Char.code Char.newline); [exact Hd|].
  apply IH; [exact Hd | lia].
Qed.

Section Scan.

Context {T : Type} `{Numeric T}.
Variable SIZE : nat.

(** More fuel does not change a run that ended. *)
Lemma scan_mono (n m : nat) filename infile (p pmax : Point T) err r :
  scan SIZE n filename infile p pmax err = r -> r <> Running ->
  (n <= m)%nat -> scan SIZE m filename infile p pmax err = r.
Proof.
  revert m infile p pmax err.
  induction n as [|n IH]; intros m infile p pmax err Hs Hr Hm.
  - simpl in Hs. congruence.
  - destruct m as [|m]; [lia|]. simpl in *.
    destruct (fromStream SIZE infile p) as [[s1 p1] [|[d|d|d]]].
    + destruct (gt SIZE p1 pmax) as [[|]|]; try exact Hs;
        (apply IH; [exact Hs | exact Hr | lia]).
    + exact Hs.
    + destruct (tellg s1) as [s2 pos].
      destruct (discard_line n s2) as [s3|] eqn:Hd; [|congruence].
      rewrite (discard_line_mono n m s2 s3 Hd) by lia.
      destruct (gt SIZE p1 pmax) as [[|]|]; try exact Hs;
        (apply IH; [exact Hs | exact Hr | lia]).
    + exact Hs.
Qed.

Lemma print_max_mono (n m : nat) filename contents r :
  print_max SIZE n filename contents = r -> r <> Running ->
  (n <= m)%nat -> print_max SIZE m filename contents = r.
Proof.
  unfold print_max.
  destruct (fromStream SIZE (open contents) (Point_default SIZE))
    as [[s1 pmax] [|e]]; [apply scan_mono|].
  destruct (tellg s1). auto.
Qed.

End Scan.

(** C1 fails on [print_max<int,2>]: the second record is rejected with
    [InvalidSymbolError], yet its first component was stored in [p], and
    after the handler [p > pmax] is tested all the same: the point
    reported as the maximum is [( 100 0 )], which is no record of the
    file. *)
Theorem scan_compares_after_invalid_symbol (n : nat) :
  print_max (T:=Z) 2 (5 + n) "input-int-2.txt" rejected_record_file
  = Return {| cerr := [mk_report "ignoring invalid element"
                         "unable to read value" 48 "input-int-2.txt" 14];
              cout := found 2 "input-int-2.txt" [100; 0] |}.
Proof.
  apply (print_max_mono (T:=Z) 2 5);
    [vm_compute; reflexivity | discriminate | lia].
Qed.

(** C2 fails on [print_max<int,1>]: after the [InvalidSymbolError] of the
    last record no newline is left, [infile.get()] returns [eof] for ever
    and [print_max] is still in its discarding loop whatever the fuel. *)
Theorem scan_hangs_without_newline (fuel : nat) :
  print_max (T:=Z) 1 fuel "input-int-1.txt" unterminated_bad_line_file
  = Running.
Proof.
  unfold print_max.
  change (fromStream (T:=Z) 1 (open unterminated_bad_line_file)
            (Point_default 1))
    with ({| buffer := Char.newline :: Char.text "( x )"; offset := 5;
             eofbit := false; failbit := false |}, [1], Returned).
  destruct fuel as [|fuel]; [reflexivity|]. cbn [scan].
  change (fromStream 1 _ (Point_default 1))
    with ({| buffer := Char.text "x )"; offset := 8;
             eofbit := false; failbit := false |}, [0],
          Thrown (InvalidSymbolError "unable to read value")).
  cbn [tellg good eofbit failbit negb andb offset].
  rewrite discard_line_no_newline; [reflexivity|].
  repeat constructor; discriminate.
Qed.

(** C6 fails on [Point<int,1>]: the distance of [( 46341 )] from the zero
    point has no value, the [int] sum cannot hold 2147488281; so has the
    comparison with another point, and [print_max] on a file with this
    record. The zero point is at distance 0. *)
Theorem magnitude_int_undefined (fuel SIZE : nat) :
  distance [46341] (Point_default 1) = None /\
  gt 1 [46341] [1] = None /\
  print_max (T:=Z) 1 (2 + fuel) "input-int-1.txt" large_component_file
  = Undefined /\
  distance (Point_default (T:=Z) SIZE) (Point_default SIZE) = Some 0%float.
Proof.
  split; [reflexivity|]. split; [reflexivity|].
  split; [|apply distance_zero_int].
  apply (print_max_mono (T:=Z) 1 2);
    [vm_compute; reflexivity | discriminate | lia].
Qed.

(** * Further properties *)

(** ** The order of [double] *)

Ltac sf_order :=
  repeat match goal with
  | |- context [PosDef.Pos.compare_cont Eq ?a ?b] =>
      change (PosDef.Pos.compare_cont Eq a b) with (Pos.compare a b)
  | H : context [PosDef.Pos.compare_cont Eq ?a ?b] |- _ =>
      change (PosDef.Pos.compare_cont Eq a b) with (Pos.compare a b) in H
  end;
  repeat match goal with
  | b : bool |- _ => destruct b
  end;
  repeat match goal with
  | |- context [Z.compare ?a ?b] => destruct (Z.compare_spec a b)
  | H : context [Z.compare ?a ?b] |- _ => destruct (Z.compare_spec a b)
  | |- context [Pos.compare ?a ?b] => destruct (Pos.compare_spec a b)
  | H : context [Pos.compare ?a ?b] |- _ => destruct (Pos.compare_spec a b)
  end;
  simpl in *; try congruence; try lia.

Lemma SFcompare_Lt_trans (x y z : spec_float) :
  SFcompare x y = Some Lt -> SFcompare y z = Some Lt ->
  SFcompare x z = Some Lt.
Proof.
  destruct x as [sx|sx| |sx mx ex], y as [sy|sy| |sy my ey],
    z as [sz|sz| |sz mz ez]; simpl; intros Hxy Hyz; sf_order.
Qed.

Lemma SFcompare_Lt_asym (x y : spec_float) :
  SFcompare x y = Some Lt -> SFcompare y x = Some Gt.
Proof.
  destruct x as [sx|sx| |sx mx ex], y as [sy|sy| |sy my ey];
    simpl; intros Hxy; sf_order.
Qed.

Lemma double_lt_inv (a b : float) :
  PrimFloat.ltb a b = true <-> SFcompare (Prim2SF a) (Prim2SF b) = Some Lt.
Proof.
  rewrite FloatAxioms.ltb_spec. unfold SFltb.
  destruct (SFcompare (Prim2SF a) (Prim2SF b)) as [[| |]|];
    split; congruence.
Qed.

Lemma double_lt_trans (a b c : float) :
  PrimFloat.ltb a b = true -> PrimFloat.ltb b c = true ->
  PrimFloat.ltb a c = true.
Proof.
  rewrite !double_lt_inv. apply SFcompare_Lt_trans.
Qed.

Lemma double_lt_asym (a b : float) :
  PrimFloat.ltb a b = true -> PrimFloat.ltb b a = false.
Proof.
  rewrite double_lt_inv. intros Hab. apply SFcompare_Lt_asym in Hab.
  rewrite FloatAxioms.ltb_spec. unfold SFltb. now rewrite Hab.
Qed.

(** *** Rounding keeps the sign *)

Lemma shr_1_nonneg (mrs : shr_record) :
  0 <= shr_m mrs -> 0 <= shr_m (shr_1 mrs).
Proof.
  destruct mrs as [m r s]. simpl.
  destruct m as [|[p|p|]|[p|p|]]; simpl; lia.
Qed.

Lemma iter_shr_1_nonneg (p : positive) (mrs : shr_record) :
  0 <= shr_m mrs -> 0 <= shr_m (SpecFloat.iter_pos shr_1 p mrs).
Proof.
  revert mrs. induction p as [p IH|p IH|]; simpl; intros mrs Hm.
  - apply IH, IH, shr_1_nonneg, Hm.
  - apply IH, IH, Hm.
  - apply shr_1_nonneg, Hm.
Qed.

Lemma shr_fexp_nonneg (m e : Z) (l : location) :
  0 <= m -> 0 <= shr_m (shr_fexp prec emax m e l).1.
Proof.
  intros Hm. unfold shr_fexp, shr.
  assert (H0 : 0 <= shr_m (shr_record_of_loc m l))
    by (destruct l as [|[]]; exact Hm).
  destruct (fexp prec emax (Zdigits2 m + e) - e); simpl; auto.
  now apply iter_shr_1_nonneg.
Qed.

Lemma round_nearest_even_nonneg (m : Z) (l : location) :
  0 <= m -> 0 <= round_nearest_even m l.
Proof.
  intros Hm. destruct l as [|[]]; simpl; try lia.
  destruct (IntDef.Z.even m); lia.
Qed.

(** Rounding a mantissa that is not negative gives a zero, a finite value
    or an infinity of the sign asked for. *)
Lemma binary_round_aux_sign (sx : bool) (mx ex : Z) (lx : location) :
  0 <= mx ->
  match binary_round_aux prec emax sx mx ex lx with
  | S754_zero _ => True
  | S754_infinity s | S754_finite s _ _ => s = sx
  | S754_nan => False
  end.
Proof.
  intros Hm. unfold binary_round_aux.
  pose proof (shr_fexp_nonneg mx ex lx Hm) as H1.
  destruct (shr_fexp prec emax mx ex lx) as [mrs' e']. simpl in H1.
  pose proof (shr_fexp_nonneg _ e' loc_Exact
                (round_nearest_even_nonneg _ (loc_of_shr_record mrs') H1))
    as H2.
  destruct (shr_fexp prec emax _ e' loc_Exact) as [mrs'' e'']. simpl in H2.
  destruct (shr_m mrs''); [exact I| |lia].
  destruct (e'' <=? emax - prec); reflexivity.
Qed.

(** The square root of no value is negative. *)
Lemma SFsqrt_not_negative (x : spec_float) :
  SFcompare (SF64sqrt x) (S754_zero false) <> Some Lt.
Proof.
  unfold SF64sqrt, SFsqrt.
  destruct x as [s|[|]| |[|] m e]; simpl; try discriminate.
  destruct (SFsqrt_core_binary prec emax (Z.pos m) e) as [[mz ez] lz].
  unfold binary_round_aux.
  destruct (shr_fexp prec emax mz ez lz) as [mrs' e'].
  destruct (shr_fexp prec emax _ e' loc_Exact) as [mrs'' e''].
  destruct (shr_m mrs''); simpl; try discriminate.
  destruct (e'' <=? emax - prec); discriminate.
Qed.

(** The square root of a value that is not negative is not negative and
    is a number. *)
Lemma SFsqrt_nonneg (x : spec_float) :
  SF_nonneg x -> SF_nonneg (SF64sqrt x).
Proof.
  unfold SF64sqrt, SFsqrt.
  destruct x as [s|s| |s m e]; simpl; try tauto.
  - intros ->. reflexivity.
  - intros ->.
    destruct (SFsqrt_core_binary prec emax (Z.pos m) e) as [[mz ez] lz] eqn:Hc.
    assert (Hmz : 0 <= mz).
    { unfold SFsqrt_core_binary in Hc.
      destruct (IntDef.Z.sqrtrem _) as [q r] eqn:Hq in Hc.
      injection Hc as <- _ _.
      change IntDef.Z.sqrtrem with Z.sqrtrem in Hq.
      pose proof (Z.sqrtrem_sqrt
        (match e - 2 * (fexp prec emax (IntDef.Z.div2 (Zdigits2 (Z.pos m) + e + 1))
                          `min` IntDef.Z.div2 e) with
         | 0 => Z.pos m
         | Z.pos _ => Z.pos m ≪ (e - 2 * (fexp prec emax (IntDef.Z.div2 (Zdigits2 (Z.pos m) + e + 1))
                          `min` IntDef.Z.div2 e))
         | Z.neg _ => 0
         end)) as Hs.
      rewrite Hq in Hs. simpl in Hs. subst q. apply Z.sqrt_nonneg. }
    pose proof (binary_round_aux_sign false mz ez lz Hmz) as Hr.
    destruct (binary_round_aux prec emax false mz ez lz); auto.
Qed.

Lemma SF_nonneg_leb (x : spec_float) :
  SF_nonneg x -> SFleb (S754_zero false) x = true.
Proof.
  destruct x as [s|s| |s m e]; simpl; try tauto; intros ->; reflexivity.
Qed.

(** An [int] that is not negative converts to a [double] that is not
    negative. *)
Lemma to_double_nonneg (n : Z) :
  0 <= n -> SF_nonneg (Prim2SF (Int.to_double n)).
Proof.
  intros Hn. destruct n as [|m|m]; [exact I| |lia].
  unfold Int.to_double. rewrite FloatAxioms.of_uint63_spec.
  pose proof (Uint63.to_Z_bounded (Uint63.of_Z (Z.pos m))) as [Hlo _].
  unfold binary_normalize.
  destruct (Uint63Axioms.to_Z (Uint63.of_Z (Z.pos m))) as [|m'|m'];
    [exact I| |lia].
  unfold binary_round.
  destruct (shl_align m' 0 _) as [mz ez].
  pose proof (binary_round_aux_sign false (Z.pos mz) ez loc_Exact) as Hr.
  destruct (binary_round_aux prec emax false (Z.pos mz) ez loc_Exact);
    simpl; auto; apply Hr; lia.
Qed.

(** ** More on [distance] and [operator>] *)

Section DistanceOrder.

Context {T : Type} `{Numeric T}.
Variable SIZE : nat.

Lemma double_sqrt_not_negative (x : float) :
  PrimFloat.ltb (PrimFloat.sqrt x) PrimFloat.zero = false.
Proof.
  rewrite FloatAxioms.ltb_spec, FloatAxioms.sqrt_spec.
  change (Prim2SF PrimFloat.zero) with (S754_zero false).
  pose proof (SFsqrt_not_negative (Prim2SF x)) as Hs.
  unfold SFltb.
  destruct (SFcompare (SF64sqrt (Prim2SF x)) (S754_zero false))
    as [[| |]|]; congruence.
Qed.

(** X1: whatever the component type, a distance that [distance] returns
    is not below zero. *)
Theorem distance_not_negative (p q : Point T) (d : float) :
  distance p q = Some d -> PrimFloat.ltb d PrimFloat.zero = false.
Proof.
  unfold distance. destruct (sum_of_squares p q zero) as [sum|]; simpl;
    [|discriminate].
  intros [= <-]. apply double_sqrt_not_negative.
Qed.

Lemma gt_inv (p q : Point T) :
  gt SIZE p q = Some true ->
  exists dp dq,
    distance p (Point_default SIZE) = Some dp /\
    distance q (Point_default SIZE) = Some dq /\
    PrimFloat.ltb dq dp = true.
Proof.
  unfold gt.
  destruct (distance p (Point_default SIZE)) as [dp|]; simpl; [|discriminate].
  destruct (distance q (Point_default SIZE)) as [dq|]; simpl; [|discriminate].
  intros [= Hlt]. eauto.
Qed.

(** X2: [operator>] is asymmetric: when [p > q] holds, [q > p] does
    not. *)
Theorem gt_asymmetric (p q : Point T) :
  gt SIZE p q = Some true -> gt SIZE q p = Some false.
Proof.
  intros Hpq. apply gt_inv in Hpq as (dp & dq & Hp & Hq & Hlt).
  unfold gt. rewrite Hp, Hq. simpl. now rewrite (double_lt_asym dq dp Hlt).
Qed.

(** X3: [operator>] is transitive. *)
Theorem gt_transitive (p q r : Point T) :
  gt SIZE p q = Some true -> gt SIZE q r = Some true ->
  gt SIZE p r = Some true.
Proof.
  intros Hpq Hqr.
  apply gt_inv in Hpq as (dp & dq & Hp & Hq & Hlt1).
  apply gt_inv in Hqr as (dq' & dr & Hq' & Hr & Hlt2).
  rewrite Hq in Hq'. injection Hq' as <-.
  unfold gt. rewrite Hp, Hr. simpl.
  now rewrite (double_lt_trans dr dq dp Hlt2 Hlt1).
Qed.

End DistanceOrder.

Lemma distance_not_negative_witness :
  distance [3; 4] [0; 0] = Some 5%float /\
  PrimFloat.ltb 5 PrimFloat.zero = false.
Proof.
  split; [reflexivity|].
  apply (distance_not_negative (T:=Z) [3; 4] [0; 0] 5%float). reflexivity.
Defined.

Lemma gt_asymmetric_witness :
  gt 2 [3; 4] [1; 1] = Some true /\ gt 2 [1; 1] [3; 4] = Some false.
Proof.
  split; [reflexivity|].
  apply (gt_asymmetric (T:=Z) 2 [3; 4] [1; 1]). reflexivity.
Defined.

Lemma gt_transitive_witness :
  gt 2 [6; 8] [3; 4] = Some true /\ gt 2 [3; 4] [1; 1] = Some true /\
  gt 2 [6; 8] [1; 1] = Some true.
Proof.
  split; [reflexivity|]. split; [reflexivity|].
  apply (gt_transitive (T:=Z) 2 [6; 8] [3; 4] [1; 1]); reflexivity.
Defined.

(** *** [Point<int,SIZE>] *)

Lemma int_fits_iff (v : Z) : Int.fits v = true <-> Int.in_range v.
Proof.
  unfold Int.fits, Int.in_range.
  rewrite andb_true_iff, !Z.leb_le. tauto.
Qed.

Lemma add_squared_difference_inv (sum a b sum' : Z) :
  Int.add_squared_difference sum a b = Some sum' ->
  sum' = sum + (a - b) * (a - b) /\ Int.in_range sum' /\ sum <= sum'.
Proof.
  unfold Int.add_squared_difference.
  destruct (Int.fits (a - b)); [|discriminate].
  destruct (Int.fits (sum + (a - b) * (a - b))) eqn:Hf; [|discriminate].
  intros [= <-]. apply int_fits_iff in Hf.
  repeat split; try apply Hf.
  pose proof (Z.square_nonneg (a - b)). lia.
Qed.

(** Swapping the two components changes neither the sum nor whether it is
    defined: the one difference whose opposite is no [int], [-2^31], has a
    square no [int] sum can take. *)
Lemma add_squared_difference_sym (sum a b : Z) :
  Int.in_range sum ->
  Int.add_squared_difference sum a b = Int.add_squared_difference sum b a.
Proof.
  unfold Int.add_squared_difference, Int.in_range, Int.fits, Int.min, Int.max.
  intros Hs.
  replace ((b - a) * (b - a)) with ((a - b) * (a - b)) by ring.
  replace (b - a) with (- (a - b)) by ring.
  generalize (a - b). intros d.
  assert (Hbig : d = - 2 ^ 31 \/ d = 2 ^ 31 ->
                 (sum + d * d <=? 2 ^ 31 - 1) = false).
  { intros [-> | ->]; apply Z.leb_gt; lia. }
  destruct (Z.leb_spec (- 2 ^ 31) d), (Z.leb_spec d (2 ^ 31 - 1)),
    (Z.leb_spec (- 2 ^ 31) (- d)), (Z.leb_spec (- d) (2 ^ 31 - 1));
    simpl; try reflexivity; try lia;
    (rewrite Hbig by lia); now rewrite andb_false_r.
Qed.

Lemma sum_of_squares_sym (p q : Point Z) (sum : Z) :
  Int.in_range sum -> sum_of_squares p q sum = sum_of_squares q p sum.
Proof.
  revert q sum. induction p as [|a p IH]; intros [|b q] sum Hs; simpl;
    try reflexivity.
  rewrite (add_squared_difference_sym sum a b Hs).
  destruct (Int.add_squared_difference sum b a) as [sum'|] eqn:Ha; simpl;
    [|reflexivity].
  rewrite <- (add_squared_difference_sym sum a b Hs) in Ha.
  apply add_squared_difference_inv in Ha as (_ & Hr & _). now apply IH.
Qed.

Lemma sum_of_squares_grows (p q : Point Z) (sum r : Z) :
  sum_of_squares p q sum = Some r -> sum <= r.
Proof.
  revert q sum. induction p as [|a p IH]; intros [|b q] sum; simpl;
    try (intros [= <-]; lia).
  destruct (Int.add_squared_difference sum a b) as [sum'|] eqn:Ha; simpl;
    [|discriminate].
  apply add_squared_difference_inv in Ha as (_ & _ & Hle).
  intros Hr. apply IH in Hr. lia.
Qed.

Lemma int_zero_in_range : Int.in_range 0.
Proof. unfold Int.in_range, Int.min, Int.max. lia. Qed.

(** X4: on points of [int] components [distance] is symmetric, also in
    whether it has a value. *)
Theorem distance_int_symmetric (p q : Point Z) : distance p q = distance q p.
Proof.
  unfold distance. simpl zero.
  now rewrite (sum_of_squares_sym p q 0 int_zero_in_range).
Qed.

(** X5: the distance of a point of [int] components from itself is 0,
    whatever its components. *)
Theorem distance_int_self (p : Point Z) : distance p p = Some 0%float.
Proof.
  unfold distance. simpl zero.
  assert (Hs : sum_of_squares p p 0 = Some 0).
  { induction p as [|a p IH]; simpl; [reflexivity|].
    unfold Int.add_squared_difference. rewrite Z.sub_diag. exact IH. }
  rewrite Hs. reflexivity.
Qed.

(** X6: on points of [int] components a distance that [distance] returns
    is a number, and at least zero. *)
Theorem distance_int_nonnegative (p q : Point Z) (d : float) :
  distance p q = Some d -> PrimFloat.leb PrimFloat.zero d = true.
Proof.
  unfold distance. simpl zero.
  destruct (sum_of_squares p q 0) as [sum|] eqn:Hs; simpl; [|discriminate].
  intros [= <-]. apply sum_of_squares_grows in Hs.
  rewrite FloatAxioms.leb_spec, FloatAxioms.sqrt_spec.
  change (Prim2SF PrimFloat.zero) with (S754_zero false).
  apply SF_nonneg_leb, SFsqrt_nonneg. now apply to_double_nonneg.
Qed.

Lemma distance_int_nonnegative_witness :
  distance [1; -2; 2] [0; 0; 0] = Some 3%float /\
  PrimFloat.leb PrimFloat.zero 3 = true.
Proof.
  split; [reflexivity|].
  apply (distance_int_nonnegative [1; -2; 2] [0; 0; 0] 3%float). reflexivity.
Defined.

(** ** More on [fromStream] *)

Section FromStreamMore.

Context {T : Type} `{Numeric T}.
Variable SIZE : nat.

Implicit Types (s : istream) (p : Point T) (temp : T).

Lemma read_components_length n i s temp p :
  length (read_components n i s temp p).1.2 = length p.
Proof.
  revert i s temp p. induction n as [|n IH]; simpl; intros i s temp p;
    [reflexivity|].
  destruct (extract s temp) as [s1 temp1].
  destruct (good s1); simpl; [|reflexivity].
  now rewrite IH, length_insert.
Qed.

Lemma fromStream_length s p :
  length (fromStream SIZE s p).1.2 = length p.
Proof.
  unfold fromStream.
  destruct (extract_char s Ascii.zero) as [s1 c].
  destruct (good s1); simpl; [|reflexivity].
  destruct (Ascii.eqb c "("); simpl; [|reflexivity].
  pose proof (read_components_length SIZE 0 s1 zero p) as Hl.
  destruct (read_components SIZE 0 s1 zero p) as [[s2 p2] [|e]];
    simpl in *; [|exact Hl].
  destruct (extract_char s2 c) as [s3 c'].
  destruct (good s3); simpl; [|exact Hl].
  destruct (Ascii.eqb c' ")"); exact Hl.
Qed.

(** X7: whatever it reads and however it ends, [fromStream] leaves a
    point of as many components as it was given. *)
Theorem fromStream_keeps_size s p :
  length (fromStream SIZE s p).1.2 = length p.
Proof. apply fromStream_length. Qed.

Lemma fromStream_thrown s p e :
  (fromStream SIZE s p).2 = Thrown e ->
  e = EmptyStreamError "empty stream" \/
  e = InvalidSymbolError "invalid symbol" \/
  e = InvalidSymbolError "unable to read value".
Proof.
  unfold fromStream.
  destruct (extract_char s Ascii.zero) as [s1 c].
  destruct (good s1); simpl; [|intros [= <-]; auto].
  destruct (Ascii.eqb c "("); simpl; [|intros [= <-]; auto].
  destruct (read_components SIZE 0 s1 zero p) as [[s2 p2] o] eqn:Hr.
  apply read_components_outcome in Hr. destruct o as [|e'].
  - destruct (extract_char s2 c) as [s3 c'].
    destruct (good s3); simpl; [|intros [= <-]; auto].
    destruct (Ascii.eqb c' ")"); simpl; [discriminate|intros [= <-]; auto].
  - simpl. intros [= <-]. auto.
Qed.

(** X8: [fromStream] throws nothing but an [EmptyStreamError] described
    as "empty stream" or an [InvalidSymbolError] described as
    "invalid symbol" or as "unable to read value". *)
Theorem fromStream_throws_only s p e :
  (fromStream SIZE s p).2 = Thrown e ->
  e = EmptyStreamError "empty stream" \/
  e = InvalidSymbolError "invalid symbol" \/
  e = InvalidSymbolError "unable to read value".
Proof. apply fromStream_thrown. Qed.

(** X9: on a stream that is not good when it is called, [fromStream]
    throws [EmptyStreamError] whatever the input holds, extracts
    nothing, leaves the point alone, and hands the stream back good. *)
Theorem fromStream_on_failed_stream s p :
  good s = false ->
  fromStream SIZE s p
  = (clear s, p, Thrown (EmptyStreamError "empty stream")).
Proof.
  intros Hg. unfold fromStream, extract_char, sentry. rewrite Hg.
  rewrite not_good_setstate. reflexivity.
Qed.

(** X10: when [fromStream] returns, the opening parenthesis was read,
    then [SIZE] values, then the closing parenthesis; the point holds
    exactly these values, nothing of what it held before, and the stream
    stands just after the closing parenthesis. *)
Theorem fromStream_returned s p s' p' :
  length p = SIZE ->
  fromStream SIZE s p = (s', p', Returned) ->
  exists s0 vs sn tn rest,
    opening s = Some s0 /\
    read_values SIZE s0 zero = Some (vs, sn, tn) /\
    skip_ws (buffer sn) = ")"%char :: rest /\
    p' = vs /\ buffer s' = rest /\ good s' = true.
Proof.
  intros Hlen Hf.
  pose proof (fromStream_good SIZE s p) as Hgood. rewrite Hf in Hgood.
  simpl in Hgood.
  destruct (opening s) as [s0|] eqn:Ho.
  - rewrite (fromStream_opened SIZE _ _ p Ho) in Hf.
    destruct (read_components SIZE 0 s0 zero p) as [[s2 p2] o] eqn:Hr.
    pose proof (read_components_outcome _ _ _ _ _ _ _ _ Hr) as Hv.
    destruct o as [|e]; [|discriminate].
    destruct Hv as (vs & tn & Hv).
    rewrite (read_components_all SIZE p s0 vs s2 tn Hlen Hv) in Hr.
    injection Hr as <-.
    assert (Hg2 : good s2 = true).
    { eapply read_values_good; [exact Hv|].
      apply opening_inv in Ho. tauto. }
    destruct (skip_ws (buffer s2)) as [|y rest] eqn:Hb.
    + rewrite (extract_char_end _ _ Hg2 Hb), not_good_setstate in Hf.
      discriminate.
    + rewrite (extract_char_next _ _ y rest Hg2 Hb) in Hf.
      rewrite !good_advance, Hg2 in Hf. simpl in Hf.
      destruct (Ascii.eqb_spec y ")") as [->|]; [|discriminate].
      injection Hf as <- <-.
      exists s0, vs, s2, tn, rest. repeat split; auto.
  - destruct (fromStream_not_opened SIZE s p Ho) as (_ & e & He).
    rewrite Hf in He. discriminate.
Qed.

Lemma skip_ws_length (b : list ascii) :
  (length (skip_ws b) <= length b)%nat.
Proof.
  induction b as [|c b IH]; simpl; [lia|].
  destruct (Char.isspace c); simpl; lia.
Qed.

Lemma extract_char_length s c :
  (length (buffer (extract_char s c).1) <= length (buffer s))%nat.
Proof.
  unfold extract_char, sentry. pose proof (skip_ws_length (buffer s)) as Hs.
  destruct (good s); simpl; [|lia].
  destruct (skip_ws (buffer s)); simpl in *; lia.
Qed.

(** A character extraction that leaves the stream good took a
    character. *)
Lemma extract_char_shorter s c :
  good (extract_char s c).1 = true ->
  (length (buffer (extract_char s c).1) < length (buffer s))%nat.
Proof.
  unfold extract_char, sentry. pose proof (skip_ws_length (buffer s)) as Hs.
  destruct (good s) eqn:Hg; simpl.
  - destruct (skip_ws (buffer s)); simpl in *; [|lia].
    now rewrite not_good_setstate.
  - now rewrite not_good_setstate.
Qed.

Hypothesis Hconsumes : consumes T.

Lemma extract_length s temp :
  (length (buffer (extract s temp).1) <= length (buffer s))%nat.
Proof.
  unfold extract, sentry. pose proof (skip_ws_length (buffer s)) as Hs.
  destruct (good s); simpl; [|lia].
  destruct (skip_ws (buffer s)) as [|c b] eqn:Hb; simpl; [lia|].
  pose proof (Hconsumes (c :: b)) as Hc.
  destruct (num_get (c :: b)) as [[rest fail] v]. simpl in *. lia.
Qed.

Lemma read_components_buffer n i s temp p :
  (length (buffer (read_components n i s temp p).1.1)
   <= length (buffer s))%nat.
Proof.
  revert i s temp p. induction n as [|n IH]; simpl; intros i s temp p;
    [lia|].
  pose proof (extract_length s temp) as He.
  destruct (extract s temp) as [s1 temp1]. simpl in He.
  destruct (good s1); simpl; [|exact He].
  etransitivity; [apply IH|exact He].
Qed.

(** [fromStream] extracts and puts nothing back; unless it throws
    [EmptyStreamError] it took at least one character. *)
Lemma fromStream_buffer s p :
  (length (buffer (fromStream SIZE s p).1.1) <= length (buffer s))%nat /\
  ((forall d, (fromStream SIZE s p).2 <> Thrown (EmptyStreamError d)) ->
   (length (buffer (fromStream SIZE s p).1.1) < length (buffer s))%nat).
Proof.
  unfold fromStream.
  pose proof (extract_char_length s Ascii.zero) as H1.
  pose proof (extract_char_shorter s Ascii.zero) as H1'.
  destruct (extract_char s Ascii.zero) as [s1 c]. simpl in H1, H1'.
  destruct (good s1); simpl.
  2:{ split; [exact H1|]. intros Hne. now destruct (Hne "empty stream"%string). }
  specialize (H1' eq_refl).
  destruct (Ascii.eqb c "("); simpl; [|split; [lia|intros _; exact H1']].
  pose proof (read_components_buffer SIZE 0 s1 zero p) as H2.
  destruct (read_components SIZE 0 s1 zero p) as [[s2 p2] [|e]];
    simpl in *; [|split; lia].
  pose proof (extract_char_length s2 c) as H3.
  destruct (extract_char s2 c) as [s3 c']. simpl in H3.
  destruct (good s3); simpl; [|split; lia].
  destruct (Ascii.eqb c' ")"); simpl; split; lia.
Qed.

(** X11: [fromStream] extracts characters and puts none back, and unless
    it throws [EmptyStreamError] it has extracted at least one. *)
Theorem fromStream_advances s p s' p' o :
  fromStream SIZE s p = (s', p', o) ->
  (length (buffer s') <= length (buffer s))%nat /\
  ((forall d, o <> Thrown (EmptyStreamError d)) ->
   (length (buffer s') < length (buffer s))%nat).
Proof.
  intros Hf. pose proof (fromStream_buffer s p) as Hb.
  rewrite Hf in Hb. exact Hb.
Qed.

End FromStreamMore.

(** *** The two component types take characters from the front *)

Lemma get_sign_length (b : list ascii) :
  (length (Int.get_sign b).2 <= length b)%nat.
Proof.
  destruct b as [|c b]; simpl; [lia|].
  destruct (Ascii.eqb c "-"); simpl; [lia|].
  destruct (Ascii.eqb c "+"); simpl; lia.
Qed.

Lemma get_digits_length (b : list ascii) (acc : Z) (seen : nat) :
  (length (Int.get_digits b acc seen).2 <= length b)%nat.
Proof.
  revert acc seen. induction b as [|c b IH]; intros acc seen; simpl; [lia|].
  destruct (Char.isdigit c); simpl; [|lia].
  specialize (IH (acc * 10 + Char.digit_value c) (S seen)). lia.
Qed.

Lemma int_consumes : consumes Z.
Proof.
  intros b. simpl. unfold Int.get.
  pose proof (get_sign_length b) as H1.
  destruct (Int.get_sign b) as [negative b1]. simpl in H1.
  pose proof (get_digits_length b1 0 0) as H2.
  destruct (Int.get_digits b1 0 0) as [[n seen] b2]. simpl in H2.
  destruct seen; simpl; [lia|].
  destruct (_ <? Int.min); simpl; [lia|].
  destruct (Int.max <? _); simpl; lia.
Qed.

Lemma double_consumes : consumes float.
Proof.
  intros b. simpl. unfold Double.get.
  pose proof (get_sign_length b) as H1.
  destruct (Int.get_sign b) as [negative b1]. simpl in H1.
  pose proof (get_digits_length b1 0 0) as H2.
  destruct (Int.get_digits b1 0 0) as [[ip n1] b2]. simpl in H2.
  assert (H3 : (length (Double.get_fraction b2 ip).2 <= length b2)%nat).
  { unfold Double.get_fraction. destruct b2 as [|c r]; simpl; [lia|].
    destruct (Ascii.eqb c "."); simpl; [|lia].
    pose proof (get_digits_length r ip 0). lia. }
  destruct (Double.get_fraction b2 ip) as [[m n2] b3]. simpl in H3.
  assert (H4 : forall found,
    (length (Double.get_exponent b3 found).2 <= length b3)%nat).
  { intros found. unfold Double.get_exponent.
    destruct b3 as [|c r]; simpl; [lia|].
    destruct (Double.is_e c && found); simpl; [|lia].
    pose proof (get_sign_length r) as Hs.
    destruct (Int.get_sign r) as [eneg r1]. simpl in Hs.
    pose proof (get_digits_length r1 0 0) as Hd.
    destruct (Int.get_digits r1 0 0) as [[ev seen] r2]. simpl in *. lia. }
  specialize (H4 (negb (Nat.eqb (n1 + n2) 0))).
  destruct (Double.get_exponent b3 _) as [ex b4]. simpl in H4.
  destruct (_ && _); simpl; [|lia].
  destruct (Double.nearest _ _ _); simpl; lia.
Qed.

Lemma fromStream_throws_only_witness :
  (fromStream 2 (open (Char.text "( 1 ]")) [0; 0]).2
    = Thrown (InvalidSymbolError "unable to read value") /\
  (InvalidSymbolError "unable to read value"
     = EmptyStreamError "empty stream" \/
   InvalidSymbolError "unable to read value"
     = InvalidSymbolError "invalid symbol" \/
   InvalidSymbolError "unable to read value"
     = InvalidSymbolError "unable to read value").
Proof.
  split; [reflexivity|].
  apply (fromStream_throws_only 2 (open (Char.text "( 1 ]")) [0; 0]).
  reflexivity.
Defined.

Lemma fromStream_on_failed_stream_witness :
  good {| buffer := Char.text "( 1 )"; offset := 0;
          eofbit := false; failbit := true |} = false /\
  fromStream 1 {| buffer := Char.text "( 1 )"; offset := 0;
                  eofbit := false; failbit := true |} [7]
  = ({| buffer := Char.text "( 1 )"; offset := 0;
        eofbit := false; failbit := false |}, [7],
     Thrown (EmptyStreamError "empty stream")).
Proof.
  split; [reflexivity|].
  apply (fromStream_on_failed_stream (T:=Z) 1
           {| buffer := Char.text "( 1 )"; offset := 0;
              eofbit := false; failbit := true |} [7]).
  reflexivity.
Defined.

Lemma fromStream_returned_witness :
  length [0; 0] = 2%nat /\
  exists s0 vs sn tn rest,
    opening (open (Char.text "(3 -4) x")) = Some s0 /\
    read_values 2 s0 0 = Some (vs, sn, tn) /\
    skip_ws (buffer sn) = ")"%char :: rest /\
    [3; -4] = vs /\ Char.text " x" = rest /\
    good {| buffer := Char.text " x"; offset := 6;
            eofbit := false; failbit := false |} = true.
Proof.
  split; [reflexivity|].
  assert (Hlen : length [0; 0] = 2%nat) by reflexivity.
  assert (Hf : fromStream 2 (open (Char.text "(3 -4) x")) [0; 0]
               = ({| buffer := Char.text " x"; offset := 6;
                     eofbit := false; failbit := false |}, [3; -4], Returned))
    by reflexivity.
  exact (fromStream_returned (T:=Z) 2 _ _ _ _ Hlen Hf).
Defined.

Lemma fromStream_advances_witness :
  consumes Z /\
  fromStream 1 (open (Char.text "x 1 )")) [0]
  = ({| buffer := Char.text " 1 )"; offset := 1;
        eofbit := false; failbit := false |}, [0],
     Thrown (InvalidSymbolError "invalid symbol")) /\
  (length (Char.text " 1 )") < length (Char.text "x 1 )"))%nat.
Proof.
  split; [exact int_consumes|]. split; [reflexivity|].
  refine (proj2 (fromStream_advances (T:=Z) 1 int_consumes
                   (open (Char.text "x 1 )")) [0] _ [0] _ eq_refl) _).
  intros d. discriminate.
Defined.

(** ** More on [print_max] *)

(** A text has a first newline or none. *)
Lemma first_newline (b : list ascii) :
  Forall (fun c => c <> Char.newline) b \/
  exists line rest,
    b = line ++ Char.newline :: rest /\
    Forall (fun c => c <> Char.newline) line.
Proof.
  induction b as [|c b IH]; [left; constructor|].
  destruct (ascii_dec c Char.newline) as [->|Hc].
  - right. exists [], b. split; [reflexivity|constructor].
  - destruct IH as [Hb | (line & rest & -> & Hline)].
    + left. now constructor.
    + right. exists (c :: line), rest. split; [reflexivity|now constructor].
Qed.

Lemma discard_line_inv (fuel : nat) (s s' : istream) :
  good s = true -> discard_line fuel s = Some s' ->
  exists line,
    buffer s = line ++ Char.newline :: buffer s' /\
    Forall (fun c => c <> Char.newline) line /\
    (length line < fuel)%nat /\ good s' = true.
Proof.
  revert s. induction fuel as [|fuel IH]; intros s Hg Hd; [discriminate|].
  simpl in Hd. unfold get in Hd. rewrite Hg in Hd.
  destruct (buffer s) as [|x rest] eqn:Hb.
  - simpl in Hd. rewrite discard_line_no_newline in Hd; [discriminate|].
    simpl. rewrite Hb. constructor.
  - destruct (Z.eqb_spec (Char.code x) (Char.code Char.newline)) as [He|Hne].
    + apply code_newline in He. subst x. injection Hd as <-.
      exists []. simpl. repeat split; [constructor | lia | exact Hg].
    + destruct (IH (advance s rest) Hg Hd) as (line & Hr & Hline & Hlen & Hg').
      simpl in Hr. exists (x :: line). rewrite Hr. simpl.
      repeat split; [|lia|exact Hg'].
      constructor; [|exact Hline]. intros ->. now apply Hne.
Qed.

(** X12: the loop that discards the rest of a line, on a good stream:
    when it ends, it has extracted up to and including the first newline
    and nothing after it, and the stream is still good; and it does end
    when a newline is left. *)
Theorem discard_line_to_newline (s : istream) :
  good s = true ->
  (forall fuel s',
      discard_line fuel s = Some s' ->
      exists line,
        buffer s = line ++ Char.newline :: buffer s' /\
        Forall (fun c => c <> Char.newline) line /\
        (length line < fuel)%nat /\ good s' = true) /\
  (forall line rest,
      buffer s = line ++ Char.newline :: rest ->
      Forall (fun c => c <> Char.newline) line ->
      exists s', discard_line (S (length line)) s = Some s' /\
                 buffer s' = rest).
Proof.
  intros Hg. split.
  - intros fuel s'. now apply discard_line_inv.
  - intros line rest Hb Hline.
    destruct (discard_line_newline s line rest Hg Hb Hline)
      as (s1 & Hd1 & Hb1 & _).
    eauto.
Qed.

Lemma discard_line_to_newline_witness :
  good (open (Char.text "x )" ++ Char.newline :: Char.text "( 4 )")) = true /\
  exists s', discard_line 4 (open (Char.text "x )" ++ Char.newline
                                   :: Char.text "( 4 )")) = Some s' /\
             buffer s' = Char.text "( 4 )".
Proof.
  split; [reflexivity|].
  refine (proj2 (discard_line_to_newline
                   (open (Char.text "x )" ++ Char.newline
                          :: Char.text "( 4 )")) eq_refl)
            (Char.text "x )") (Char.text "( 4 )") eq_refl _).
  repeat constructor; discriminate.
Defined.

Section PrintMaxOutput.

Context {T : Type} `{Numeric T}.
Variable SIZE : nat.

Lemma scan_output (n : nat) filename infile (p pmax : Point T) err out :
  length p = SIZE -> length pmax = SIZE ->
  Forall (skipped_record filename) err ->
  scan SIZE n filename infile p pmax err = Return out ->
  exists pmax',
    length pmax' = SIZE /\ cout out = found SIZE filename pmax' /\
    Forall (skipped_record filename) (cerr out).
Proof.
  revert infile p pmax err.
  induction n as [|n IH]; intros infile p pmax err Hp Hpmax Herr;
    [discriminate|].
  simpl.
  pose proof (fromStream_length SIZE infile p) as Hlen.
  pose proof (fromStream_thrown SIZE infile p) as Hthrow.
  destruct (fromStream SIZE infile p) as [[s1 p1] o]. simpl in Hlen, Hthrow.
  rewrite Hp in Hlen.
  assert (Hcompare : forall s' err',
    Forall (skipped_record filename) err' ->
    match gt SIZE p1 pmax with
    | Some true => scan SIZE n filename s' p1 p1 err'
    | Some false => scan SIZE n filename s' p1 pmax err'
    | None => Undefined
    end = Return out ->
    exists pmax',
      length pmax' = SIZE /\ cout out = found SIZE filename pmax' /\
      Forall (skipped_record filename) (cerr out)).
  { intros s' err' Herr'. destruct (gt SIZE p1 pmax) as [[|]|];
      [apply IH | apply IH | discriminate]; auto. }
  destruct o as [|[d|d|d]].
  - now apply Hcompare.
  - intros [= <-]. exists pmax. repeat split; auto.
  - destruct (tellg s1) as [s2 pos].
    destruct (discard_line n s2) as [s3|]; [|discriminate].
    apply Hcompare. apply Forall_app. split; [exact Herr|].
    constructor; [|constructor].
    unfold skipped_record. simpl. repeat split.
    destruct (Hthrow _ eq_refl) as [He | [He | He]];
      [discriminate | injection He as -> | injection He as ->]; auto.
  - destruct (Hthrow _ eq_refl) as [He | [He | He]]; discriminate.
Qed.

(** X13: what [print_max] writes when it returns. Either the first read
    failed: one block "unable to read first element" on [cerr] with one
    of the three descriptions [fromStream] has, and nothing on [cout]. Or
    [cout] names a point of [SIZE] components as the furthest, and
    [cerr] holds nothing but blocks "ignoring invalid element" of source
    line 48; "unable to recover" is never written. *)
Theorem print_max_output (fuel : nat) filename contents out :
  print_max SIZE fuel filename contents = Return out ->
  (exists d pos,
      out = {| cerr := [mk_report "unable to read first element" d 35
                          filename pos];
               cout := EmptyString |} /\
      (d = "empty stream"%string \/ d = "invalid symbol"%string \/
       d = "unable to read value"%string)) \/
  (exists pmax : Point T,
      length pmax = SIZE /\ cout out = found SIZE filename pmax /\
      Forall (skipped_record filename) (cerr out)).
Proof.
  unfold print_max.
  pose proof (fromStream_length SIZE (open contents) (Point_default SIZE))
    as Hlen.
  pose proof (fromStream_thrown SIZE (open contents) (Point_default SIZE))
    as Hthrow.
  destruct (fromStream SIZE (open contents) (Point_default SIZE))
    as [[s1 pmax] [|e]]; simpl in Hlen, Hthrow.
  - intros Hs. right.
    unfold Point_default in Hlen. rewrite length_replicate in Hlen.
    apply (scan_output fuel filename s1 (Point_default SIZE) pmax [] out);
      auto. apply length_replicate.
  - destruct (tellg s1) as [s2 pos]. intros [= <-]. left.
    exists (what e), pos. split; [reflexivity|].
    destruct (Hthrow e eq_refl) as [-> | [-> | ->]]; simpl; auto.
Qed.

(** X14: on a file that is empty or holds white space only, [print_max]
    writes one block to [cerr], "unable to read first element" with the
    description "empty stream" and the length of the file as position,
    and nothing to [cout]; no fuel is needed. *)
Theorem print_max_blank_file (fuel : nat) filename (ws : list ascii) :
  all_space ws ->
  print_max (T:=T) SIZE fuel filename ws
  = Return {| cerr := [mk_report "unable to read first element"
                         "empty stream" 35 filename
                         (Z.of_nat (length ws))];
              cout := EmptyString |}.
Proof.
  intros Hws. apply skip_ws_all_space in Hws.
  unfold print_max, fromStream.
  rewrite (extract_char_end (open ws) _ eq_refl Hws), not_good_setstate.
  simpl. repeat f_equal. lia.
Qed.

End PrintMaxOutput.

Lemma print_max_output_witness :
  print_max (T:=Z) 1 10 "input-int-1.txt"
    (Char.text "( 1 )" ++ Char.newline :: Char.text "( x )"
     ++ Char.newline :: Char.text "( 4 )")
  = Return {| cerr := [mk_report "ignoring invalid element"
                         "unable to read value" 48 "input-int-1.txt" 8];
              cout := found 1 "input-int-1.txt" [4] |} /\
  ((exists d pos,
      {| cerr := [mk_report "ignoring invalid element"
                    "unable to read value" 48 "input-int-1.txt" 8];
         cout := found 1 "input-int-1.txt" [4] |}
      = {| cerr := [mk_report "unable to read first element" d 35
                      "input-int-1.txt" pos];
           cout := EmptyString |} /\
      (d = "empty stream"%string \/ d = "invalid symbol"%string \/
       d = "unable to read value"%string)) \/
   (exists pmax : Point Z,
      length pmax = 1%nat /\
      found 1 "input-int-1.txt" [4] = found 1 "input-int-1.txt" pmax /\
      Forall (skipped_record "input-int-1.txt")
        [mk_report "ignoring invalid element" "unable to read value" 48
           "input-int-1.txt" 8])).
Proof.
  assert (Hrun : print_max (T:=Z) 1 10 "input-int-1.txt"
    (Char.text "( 1 )" ++ Char.newline :: Char.text "( x )"
     ++ Char.newline :: Char.text "( 4 )")
    = Return {| cerr := [mk_report "ignoring invalid element"
                           "unable to read value" 48 "input-int-1.txt" 8];
                cout := found 1 "input-int-1.txt" [4] |})
    by (vm_compute; reflexivity).
  split; [exact Hrun|].
  exact (print_max_output (T:=Z) 1 10 "input-int-1.txt" _ _ Hrun).
Defined.

Lemma print_max_blank_file_witness :
  all_space [" "%char; Char.newline] /\
  print_max (T:=Z) 3 0 "input-int-3.txt" [" "%char; Char.newline]
  = Return {| cerr := [mk_report "unable to read first element"
                         "empty stream" 35 "input-int-3.txt" 2];
              cout := EmptyString |}.
Proof.
  assert (Hws : all_space [" "%char; Char.newline])
    by (repeat constructor).
  split; [exact Hws|].
  exact (print_max_blank_file (T:=Z) 3 0 "input-int-3.txt" _ Hws).
Defined.

Lemma discard_line_none_forever (n : nat) (s : istream) :
  good s = true -> (length (buffer s) < n)%nat ->
  discard_line n s = None -> forall m, discard_line m s = None.
Proof.
  intros Hg Hn Hd m.
  destruct (first_newline (buffer s)) as [Hb | (line & rest & Hb & Hline)].
  - now apply discard_line_no_newline.
  - destruct (discard_line_newline s line rest Hg Hb Hline)
      as (s1 & Hd1 & _).
    rewrite (discard_line_mono _ n s s1 Hd1) in Hd; [discriminate|].
    rewrite Hb, length_app in Hn. simpl in Hn. lia.
Qed.

Lemma discard_line_agree (n m : nat) (s a b : istream) :
  discard_line n s = Some a -> discard_line m s = Some b -> a = b.
Proof.
  intros Ha Hb.
  pose proof (discard_line_mono n (Nat.max n m) s a Ha (Nat.le_max_l n m)) as H1.
  pose proof (discard_line_mono m (Nat.max n m) s b Hb (Nat.le_max_r n m)) as H2.
  congruence.
Qed.

Section PrintMaxBound.

Context {T : Type} `{Numeric T}.
Variable SIZE : nat.
Hypothesis Hconsumes : consumes T.

(** A run of the loop that has not ended after more rounds than the
    stream has characters left never ends. *)
Lemma scan_decided (n : nat) filename infile (p pmax : Point T) err :
  good infile = true -> (length (buffer infile) < n)%nat ->
  scan SIZE n filename infile p pmax err = Running ->
  forall m, scan SIZE m filename infile p pmax err = Running.
Proof.
  revert infile p pmax err.
  induction n as [|n IH]; intros infile p pmax err Hg Hn Hrun m; [lia|].
  destruct m as [|m]; [reflexivity|]. simpl in *.
  pose proof (fromStream_good SIZE infile p) as Hg1.
  destruct (fromStream SIZE infile p) as [[s1 p1] o] eqn:Hf. simpl in Hg1.
  pose proof (fromStream_buffer SIZE Hconsumes infile p) as [Hle Hlt].
  rewrite Hf in Hle, Hlt. simpl in Hle, Hlt.
  destruct o as [|[d|d|d]]; try discriminate.
  - assert (Hn1 : (length (buffer s1) < n)%nat)
      by (specialize (Hlt ltac:(discriminate)); lia).
    destruct (gt SIZE p1 pmax) as [[|]|]; [| |discriminate];
      now apply (IH s1).
  - assert (Hn1 : (length (buffer s1) < n)%nat)
      by (specialize (Hlt ltac:(discriminate)); lia).
    unfold tellg in *. rewrite Hg1 in *.
    destruct (discard_line n s1) as [s3|] eqn:Hdn.
    + destruct (discard_line_inv n s1 s3 Hg1 Hdn)
        as (line & Hb & _ & _ & Hg3).
      assert (Hn3 : (length (buffer s3) < n)%nat).
      { rewrite Hb, length_app in Hn1. simpl in Hn1. lia. }
      destruct (discard_line m s1) as [s3'|] eqn:Hdm; [|reflexivity].
      rewrite (discard_line_agree _ _ _ _ _ Hdm Hdn).
      destruct (gt SIZE p1 pmax) as [[|]|]; [| |discriminate];
        now apply (IH s3).
    + now rewrite (discard_line_none_forever n s1 Hg1 Hn1 Hdn m).
  - destruct (tellg s1). discriminate.
Qed.

(** X15: whether [print_max] returns, and what it writes, is settled
    within one round of its loop per character of the file: fuel beyond
    that changes nothing, so a run still going by then never ends. *)
Theorem print_max_decided (fuel : nat) filename contents :
  (length contents < fuel)%nat ->
  print_max SIZE fuel filename contents
  = print_max SIZE (S (length contents)) filename contents.
Proof.
  intros Hfuel.
  destruct (print_max SIZE (S (length contents)) filename contents)
    as [out| |] eqn:Hr;
    try (apply (print_max_mono SIZE (S (length contents)));
         [exact Hr | discriminate | lia]).
  unfold print_max in *.
  pose proof (fromStream_good SIZE (open contents) (Point_default SIZE)) as Hg1.
  destruct (fromStream SIZE (open contents) (Point_default SIZE))
    as [[s1 pmax] o] eqn:Hf. simpl in Hg1.
  pose proof (fromStream_buffer SIZE Hconsumes (open contents)
                (Point_default SIZE)) as [Hle _].
  rewrite Hf in Hle. simpl in Hle.
  destruct o as [|e]; [|destruct (tellg s1); discriminate].
  apply (scan_decided (S (length contents))); auto.
  simpl in Hle. lia.
Qed.

End PrintMaxBound.

Lemma print_max_decided_witness :
  consumes Z /\
  (length unterminated_bad_line_file < 1000)%nat /\
  print_max (T:=Z) 1 1000 "input-int-1.txt" unterminated_bad_line_file
  = print_max (T:=Z) 1 (S (length unterminated_bad_line_file))
      "input-int-1.txt" unterminated_bad_line_file.
Proof.
  assert (Hlen : (length unterminated_bad_line_file < 1000)%nat)
    by (vm_compute; lia).
  split; [exact int_consumes|]. split; [exact Hlen|].
  exact (print_max_decided (T:=Z) 1 int_consumes 1000 "input-int-1.txt"
           unterminated_bad_line_file Hlen).
Defined.

(** ** Records read back *)

Lemma skip_ws_app (ws b : list ascii) :
  all_space ws -> skip_ws (ws ++ b) = skip_ws b.
Proof.
  induction 1 as [|c ws Hc _ IH]; simpl; [reflexivity|].
  now rewrite Hc.
Qed.

Section GoodRecords.

Context {T : Type} `{Numeric T}.
Variable SIZE : nat.
Variable faithful : T -> Prop.

Hypothesis get_put : forall v rest,
  faithful v ->
  num_get (num_put v ++ " "%char :: rest) = (" "%char :: rest, false, v).

Hypothesis put_head : forall v,
  faithful v -> exists c cs, num_put v = c :: cs /\ Char.isspace c = false.

(** A record as [toStream] writes it is read back from any good stream,
    after any white space. *)
Lemma fromStream_record (s : istream) (p p0 : Point T) (ws rest : list ascii) :
  good s = true -> all_space ws -> buffer s = ws ++ toStream p ++ rest ->
  length p = SIZE -> length p0 = SIZE -> Forall faithful p ->
  exists s', fromStream SIZE s p0 = (s', p, Returned) /\
             good s' = true /\ buffer s' = rest.
Proof.
  intros Hg Hws Hb Hlen Hlen0 Hp.
  set (body := " "%char :: components_text p ++ ")"%char :: rest).
  assert (Htxt : toStream p ++ rest = "("%char :: body).
  { unfold toStream, body, components_text. simpl.
    now rewrite <- !app_assoc. }
  assert (Hskip : skip_ws (buffer s) = "("%char :: body).
  { rewrite Hb, Htxt, (skip_ws_app _ _ Hws). reflexivity. }
  set (s0 := advance (advance s ("("%char :: body)) body).
  assert (Ho : opening s = Some s0).
  { unfold opening. rewrite (extract_char_next _ _ "("%char body Hg Hskip).
    rewrite !good_advance, Hg. reflexivity. }
  rewrite (fromStream_opened SIZE _ _ p0 Ho).
  destruct (read_values_text faithful get_put put_head p s0 zero
              (")"%char :: rest) Hp)
    as (sn & tn & Hr & Hgn & Hbn); [exact Hg | reflexivity |].
  rewrite Hlen in Hr.
  rewrite (read_components_all SIZE p0 s0 p sn tn Hlen0 Hr).
  rewrite (extract_char_next sn _ ")"%char rest Hgn)
    by (rewrite Hbn; reflexivity).
  rewrite !good_advance, Hgn. simpl. eauto.
Qed.

(** A new maximum is not exceeded by what the old one was not exceeded
    by. *)
Lemma gt_new_maximum (q r pmax : Point T) :
  gt SIZE r pmax = Some true -> gt SIZE q pmax = Some false ->
  gt SIZE q r = Some false.
Proof.
  intros Hr Hq. apply gt_inv in Hr as (dr & dm & Hdr & Hdm & Hlt).
  unfold gt in *. rewrite Hdr. rewrite Hdm in Hq.
  destruct (distance q (Point_default SIZE)) as [dq|]; simpl in *;
    [|discriminate].
  injection Hq as Hq. f_equal.
  destruct (PrimFloat.ltb dr dq) eqn:Hlt2; [|reflexivity].
  now rewrite (double_lt_trans dm dr dq Hlt Hlt2) in Hq.
Qed.

Lemma gt_defined (p q : Point T) :
  distance p (Point_default SIZE) <> None ->
  distance q (Point_default SIZE) <> None ->
  exists b, gt SIZE p q = Some b.
Proof.
  unfold gt. intros Hp Hq.
  destruct (distance p (Point_default SIZE)); [|congruence].
  destruct (distance q (Point_default SIZE)); [|congruence].
  simpl. eauto.
Qed.

Lemma gt_self (p : Point T) :
  distance p (Point_default SIZE) <> None -> gt SIZE p p = Some false.
Proof.
  unfold gt. intros Hp.
  destruct (distance p (Point_default SIZE)) as [d|]; [|congruence].
  simpl. now rewrite double_lt_irrefl.
Qed.

End GoodRecords.

(** ** [print_max] on a file with lines that are no records *)

Lemma skip_ws_app_stop (b x rest : list ascii) (c : ascii) :
  skip_ws b = c :: rest -> skip_ws (b ++ x) = c :: rest ++ x.
Proof.
  induction b as [|a b IH]; simpl; [discriminate|].
  destruct (Char.isspace a); [exact IH|].
  intros [= -> ->]. reflexivity.
Qed.

Lemma skip_ws_Forall (P : ascii -> Prop) (b : list ascii) :
  Forall P b -> Forall P (skip_ws b).
Proof.
  induction 1 as [|a b Ha Hb IH]; simpl; [constructor|].
  destruct (Char.isspace a); [exact IH|]. now constructor.
Qed.

Section FileOfLines.

Context {T : Type} `{Numeric T}.
Variable SIZE : nat.
Variable faithful : T -> Prop.

Hypothesis get_put : forall v rest,
  faithful v ->
  num_get (num_put v ++ " "%char :: rest) = (" "%char :: rest, false, v).

Hypothesis put_head : forall v,
  faithful v -> exists c cs, num_put v = c :: cs /\ Char.isspace c = false.

(** A line rejected at its opening parenthesis: [fromStream] throws
    [InvalidSymbolError] and leaves the point alone; the rest of the line
    is what the stream then holds first. *)
Lemma fromStream_bad_line (s : istream) (p : Point T)
    (ws txt rest : list ascii) :
  good s = true -> all_space ws -> rejected_at_opening txt ->
  buffer s = ws ++ txt ++ Char.newline :: rest ->
  exists s1 tail,
    fromStream SIZE s p
    = (s1, p, Thrown (InvalidSymbolError "invalid symbol")) /\
    good s1 = true /\ buffer s1 = tail ++ Char.newline :: rest /\
    Forall (fun c => c <> Char.newline) tail /\
    (length tail < length txt)%nat.
Proof.
  intros Hg Hws (Hnl & c & tail & Hskip & Hc) Hb.
  assert (Hs : skip_ws (buffer s) = c :: tail ++ Char.newline :: rest).
  { rewrite Hb, (skip_ws_app _ _ Hws). now apply skip_ws_app_stop. }
  exists (advance (advance s (c :: tail ++ Char.newline :: rest))
            (tail ++ Char.newline :: rest)), tail.
  unfold fromStream. rewrite (extract_char_next _ _ _ _ Hg Hs).
  rewrite !good_advance, Hg. simpl.
  destruct (Ascii.eqb_spec c "("); [contradiction|]. simpl.
  repeat split; auto.
  - pose proof (skip_ws_Forall _ _ Hnl) as Hf. rewrite Hskip in Hf.
    now apply Forall_cons in Hf.
  - pose proof (skip_ws_length txt) as Hl. rewrite Hskip in Hl.
    simpl in Hl. lia.
Qed.

Lemma rejection_at_opening (txt : list ascii) :
  rejected_at_opening txt -> rejection txt = "invalid symbol"%string.
Proof.
  intros (_ & c & rest & Hs & Hc). unfold rejection. rewrite Hs.
  destruct (Ascii.eqb_spec c "("); [contradiction|reflexivity].
Qed.

(** The lines that are no records: each is rejected with
    [InvalidSymbolError] before anything is stored in the point, and the
    stream is left within the line. *)
Variable bad : list ascii -> Prop.

Hypothesis bad_rejected : forall txt s (p : Point T) ws rest,
  bad txt -> good s = true -> all_space ws ->
  buffer s = ws ++ txt ++ Char.newline :: rest -> length p = SIZE ->
  exists s1 tail,
    fromStream SIZE s p
    = (s1, p, Thrown (InvalidSymbolError (rejection txt))) /\
    good s1 = true /\ buffer s1 = tail ++ Char.newline :: rest /\
    Forall (fun c => c <> Char.newline) tail /\
    (length tail < length txt)%nat.

Lemma rejection_skipped (txt : list ascii) filename pos :
  skipped_record filename
    (mk_report "ignoring invalid element" (rejection txt) 48 filename pos).
Proof.
  unfold skipped_record, rejection. simpl. repeat split.
  destruct (skip_ws txt) as [|c t]; [auto|].
  destruct (Ascii.eqb c "("); auto.
Qed.

(** The loop over the lines that are left. *)
Lemma scan_lines (ls : list (line T)) (seen : list (Point T)) filename
    (s : istream) (p pmax : Point T) err (fuel : nat) (ws : list ascii) :
  Forall (sound_line faithful bad SIZE) ls ->
  good s = true -> all_space ws -> buffer s = ws ++ lines_text ls ->
  (length (buffer s) < fuel)%nat -> length p = SIZE ->
  distance pmax (Point_default SIZE) <> None ->
  gt SIZE p pmax = Some false ->
  In pmax seen -> (forall q, In q seen -> gt SIZE q pmax = Some false) ->
  exists pmax' err',
    scan SIZE fuel filename s p pmax err
    = Return {| cerr := err ++ err'; cout := found SIZE filename pmax' |} /\
    In pmax' (seen ++ good_points ls) /\
    (forall q, In q (seen ++ good_points ls) -> gt SIZE q pmax' = Some false) /\
    map reason err' = map rejection (bad_lines ls) /\
    Forall (skipped_record filename) err'.
Proof.
  intros Hls. revert seen s p pmax err fuel ws.
  induction Hls as [|l ls Hl _ IH];
    intros seen s p pmax err fuel ws Hg Hws Hb Hfuel Hp Hd Hpp Hin Hmax.
  - exists pmax, []. rewrite !app_nil_r. repeat split; auto.
    destruct fuel as [|fuel]; [lia|]. simpl. unfold fromStream.
    rewrite (extract_char_end s _ Hg).
    + now rewrite not_good_setstate.
    + rewrite Hb. unfold lines_text. simpl. rewrite app_nil_r.
      now apply skip_ws_all_space.
  - destruct fuel as [|fuel]; [lia|].
    destruct l as [r|txt]; simpl in Hl.
    + destruct Hl as (Hrlen & Hrf & Hrd).
      destruct (fromStream_record SIZE faithful get_put put_head s r p ws
                  (Char.newline :: lines_text ls) Hg Hws)
        as (s' & Hf & Hg' & Hb'); auto.
      { rewrite Hb. unfold lines_text. simpl. now rewrite <- app_assoc. }
      assert (Hfuel' : (length (buffer s') < fuel)%nat).
      { rewrite Hb' . rewrite Hb in Hfuel. unfold lines_text in Hfuel.
        simpl in Hfuel. rewrite !length_app in Hfuel. simpl in Hfuel.
        unfold lines_text. unfold toStream in Hfuel.
        rewrite !length_app in Hfuel. simpl in *. lia. }
      cbn [scan]. rewrite Hf.
      destruct (gt_defined SIZE r pmax Hrd Hd) as [[|] Hgt]; rewrite Hgt.
      * destruct (IH (seen ++ [r]) s' r r err fuel [Char.newline] Hg')
          as (pmax' & err' & Hs & Hin' & Hmax' & Hlen' & Herr'); auto.
        { repeat constructor. }
        { now apply gt_self. }
        { apply in_app_iff. right. now left. }
        { intros q Hq. apply in_app_iff in Hq as [Hq | [<- | []]].
          - apply (gt_new_maximum SIZE q r pmax Hgt). auto.
          - now apply gt_self. }
        exists pmax', err'. simpl good_points. simpl bad_lines.
        rewrite <- app_assoc in Hin', Hmax'. auto.
      * destruct (IH (seen ++ [r]) s' r pmax err fuel [Char.newline] Hg')
          as (pmax' & err' & Hs & Hin' & Hmax' & Hlen' & Herr'); auto.
        { repeat constructor. }
        { apply in_app_iff. now left. }
        { intros q Hq. apply in_app_iff in Hq as [Hq | [<- | []]]; auto. }
        exists pmax', err'. simpl good_points. simpl bad_lines.
        rewrite <- app_assoc in Hin', Hmax'. auto.
    + destruct (bad_rejected txt s p ws (lines_text ls) Hl Hg Hws)
        as (s1 & tail & Hf & Hg1 & Hb1 & Htail & Hlen); auto.
      { rewrite Hb. unfold lines_text. simpl. now rewrite <- !app_assoc. }
      destruct (discard_line_newline s1 tail (lines_text ls) Hg1 Hb1 Htail)
        as (s3 & Hd3 & Hb3 & Hg3).
      assert (Hsize : (length (buffer s)
                       = length ws + length txt + 1 + length (lines_text ls))%nat).
      { rewrite Hb. unfold lines_text. simpl.
        rewrite <- app_assoc, !length_app. simpl. lia. }
      cbn [scan]. rewrite Hf. unfold tellg. rewrite Hg1.
      rewrite (discard_line_mono _ fuel s1 s3 Hd3) by lia.
      rewrite Hpp.
      destruct (IH seen s3 p pmax
                  (err ++ [mk_report "ignoring invalid element"
                             (rejection txt) 48 filename (offset s1)])
                  fuel [] Hg3)
        as (pmax' & err' & Hs & Hin' & Hmax' & Hlen' & Herr'); auto.
      { constructor. }
      { rewrite Hb3. lia. }
      exists pmax',
        (mk_report "ignoring invalid element" (rejection txt) 48 filename
           (offset s1) :: err').
      rewrite <- app_assoc in Hs. simpl in Hs. simpl good_points.
      simpl bad_lines. simpl map. repeat split; auto.
      * now rewrite Hlen'.
      * constructor; [apply rejection_skipped|exact Herr'].
Qed.

Hypothesis zero_least : forall p : Point T,
  distance p (Point_default SIZE) <> None ->
  gt SIZE (Point_default SIZE) p = Some false.

Lemma print_max_lines (fuel : nat) filename (p0 : Point T)
    (ls : list (line T)) :
  Forall (sound_line faithful bad SIZE) (Good p0 :: ls) ->
  (length (lines_text (Good p0 :: ls)) < fuel)%nat ->
  exists pmax err,
    print_max SIZE fuel filename (lines_text (Good p0 :: ls))
    = Return {| cerr := err; cout := found SIZE filename pmax |} /\
    In pmax (good_points (Good p0 :: ls)) /\
    (forall q, In q (good_points (Good p0 :: ls)) ->
               gt SIZE q pmax = Some false) /\
    map reason err = map rejection (bad_lines ls) /\
    Forall (skipped_record filename) err.
Proof.
  intros Hall Hfuel. apply Forall_cons in Hall as [(Hlen & Hf & Hd) Hls].
  unfold print_max.
  destruct (fromStream_record SIZE faithful get_put put_head
              (open (lines_text (Good p0 :: ls))) p0
              (Point_default SIZE) [] (Char.newline :: lines_text ls))
    as (s1 & Hfs & Hg1 & Hb1); auto.
  { constructor. }
  { unfold lines_text. simpl. now rewrite <- app_assoc. }
  { apply length_replicate. }
  rewrite Hfs.
  destruct (scan_lines ls [p0] filename s1 (Point_default SIZE) p0 [] fuel
              [Char.newline] Hls Hg1)
    as (pmax & err & Hs & Hin & Hmax & Hlen' & Herr); auto.
  { repeat constructor. }
  { rewrite Hb1. unfold lines_text in Hfuel. simpl in Hfuel.
    rewrite !length_app in Hfuel. simpl in *. unfold lines_text. lia. }
  { apply length_replicate. }
  { now left. }
  { intros q [<- | []]. now apply gt_self. }
  exists pmax, err. auto.
Qed.

End FileOfLines.

(** No point of [int] components at a defined distance from the zero
    point is exceeded by the zero point. *)
Lemma int_zero_least (SIZE : nat) (p : Point Z) :
  distance p (Point_default SIZE) <> None ->
  gt SIZE (Point_default SIZE) p = Some false.
Proof.
  intros Hp. unfold gt. rewrite distance_zero_int.
  unfold distance in *.
  destruct (sum_of_squares p (Point_default SIZE) zero) as [sum|];
    simpl in *; [|congruence].
  now rewrite double_sqrt_not_negative.
Qed.

(** After the opening parenthesis of a [Point<int,SIZE>] record, a
    character that starts no [int] makes [fromStream] throw
    [InvalidSymbolError] "unable to read value" with nothing stored. *)
Lemma fromStream_no_first_value (SIZE : nat) (txt : list ascii) (s : istream)
    (p : Point Z) (ws rest : list ascii) :
  (0 < SIZE)%nat -> unreadable_first_value txt ->
  good s = true -> all_space ws ->
  buffer s = ws ++ txt ++ Char.newline :: rest ->
  exists s1 tail,
    fromStream SIZE s p
    = (s1, p, Thrown (InvalidSymbolError "unable to read value")) /\
    good s1 = true /\ buffer s1 = tail ++ Char.newline :: rest /\
    Forall (fun c => c <> Char.newline) tail /\
    (length tail < length txt)%nat.
Proof.
  intros Hsize (Hnl & t1 & c & t2 & Hs1 & Hs2 & Hdig & Hm & Hp) Hg Hws Hb.
  assert (Hskip : skip_ws (buffer s) = "("%char :: t1 ++ Char.newline :: rest).
  { rewrite Hb, (skip_ws_app _ _ Hws). now apply skip_ws_app_stop. }
  set (s0 := advance (advance s ("("%char :: t1 ++ Char.newline :: rest))
               (t1 ++ Char.newline :: rest)).
  assert (Ho : opening s = Some s0).
  { unfold opening. rewrite (extract_char_next _ _ _ _ Hg Hskip).
    rewrite !good_advance, Hg. reflexivity. }
  assert (Hget : Int.get (c :: t2 ++ Char.newline :: rest)
                 = (c :: t2 ++ Char.newline :: rest, true, 0)).
  { unfold Int.get, Int.get_sign.
    destruct (Ascii.eqb_spec c "-"); [contradiction|].
    destruct (Ascii.eqb_spec c "+"); [contradiction|].
    simpl. rewrite Hdig. reflexivity. }
  assert (He : extract s0 0
               = (setstate false true
                    (advance (advance s0 (c :: t2 ++ Char.newline :: rest))
                       (c :: t2 ++ Char.newline :: rest)), 0)).
  { rewrite (extract_field (T:=Z) s0 0 0 c (t2 ++ Char.newline :: rest)
               (c :: t2 ++ Char.newline :: rest) true); [reflexivity| | |exact Hget].
    - unfold s0. rewrite !good_advance. exact Hg.
    - simpl. now apply skip_ws_app_stop. }
  exists (clear (setstate false true
            (advance (advance s0 (c :: t2 ++ Char.newline :: rest))
               (c :: t2 ++ Char.newline :: rest)))), (c :: t2).
  rewrite (fromStream_opened SIZE _ _ p Ho).
  destruct SIZE as [|n]; [lia|].
  cbn [read_components]. simpl zero. rewrite He, not_good_setstate.
  repeat split.
  - pose proof (skip_ws_Forall _ _ Hnl) as Hf1. rewrite Hs1 in Hf1.
    apply Forall_cons in Hf1 as [_ Hf1].
    pose proof (skip_ws_Forall _ _ Hf1) as Hf2. now rewrite Hs2 in Hf2.
  - pose proof (skip_ws_length txt) as Hl1. rewrite Hs1 in Hl1.
    pose proof (skip_ws_length t1) as Hl2. rewrite Hs2 in Hl2.
    simpl in *. lia.
Qed.

Lemma rejection_no_first_value (txt : list ascii) :
  unreadable_first_value txt -> rejection txt = "unable to read value"%string.
Proof.
  intros (_ & t1 & c & t2 & Hs1 & _). unfold rejection. now rewrite Hs1.
Qed.

(** X16: a file whose first line is a [Point<int,SIZE>] record and whose
    other lines are such records, or text that does not start with an
    opening parenthesis, or text that after the opening parenthesis goes
    on with a character that starts no number; each line is ended by a
    newline. With more fuel than the file has characters [print_max]
    returns; the point it names on [cout] is one of the records and none
    of the records is greater than it; and [cerr] holds one block
    "ignoring invalid element" per line that is no record, in order, with
    the description "invalid symbol" or "unable to read value" as the line
    is of the one kind or the other: such lines do not change the
    result. *)
Theorem print_max_int_lines (SIZE fuel : nat) filename (p0 : Point Z)
    (ls : list (line Z)) :
  (0 < SIZE)%nat ->
  Forall (sound_line Int.in_range
            (fun txt => rejected_at_opening txt \/ unreadable_first_value txt)
            SIZE) (Good p0 :: ls) ->
  (length (lines_text (Good p0 :: ls)) < fuel)%nat ->
  exists pmax err,
    print_max (T:=Z) SIZE fuel filename (lines_text (Good p0 :: ls))
    = Return {| cerr := err; cout := found SIZE filename pmax |} /\
    In pmax (good_points (Good p0 :: ls)) /\
    (forall q, In q (good_points (Good p0 :: ls)) ->
               gt SIZE q pmax = Some false) /\
    map reason err = map rejection (bad_lines ls) /\
    Forall (skipped_record filename) err.
Proof.
  intros Hsize.
  apply (print_max_lines (T:=Z) SIZE Int.in_range).
  - intros v rest' Hv. now apply int_get_put.
  - intros v _. apply int_put_head.
  - intros txt s p ws rest [Hbad | Hbad] Hg Hws Hb _.
    + rewrite (rejection_at_opening txt Hbad).
      now apply (fromStream_bad_line SIZE s p ws txt rest).
    + rewrite (rejection_no_first_value txt Hbad).
      now apply (fromStream_no_first_value SIZE txt s p ws rest).
  - apply int_zero_least.
Qed.

Lemma print_max_int_lines_witness :
  (0 < 1)%nat /\
  Forall (sound_line Int.in_range
            (fun txt => rejected_at_opening txt \/ unreadable_first_value txt)
            1) (Good [1] :: mixed_lines) /\
  (length (lines_text (Good [1%Z] :: mixed_lines)) < 40)%nat /\
  exists pmax err,
    print_max (T:=Z) 1 40 "input-int-1.txt"
      (lines_text (Good [1] :: mixed_lines))
    = Return {| cerr := err; cout := found 1 "input-int-1.txt" pmax |} /\
    In pmax (good_points (Good [1] :: mixed_lines)) /\
    (forall q, In q (good_points (Good [1] :: mixed_lines)) ->
               gt 1 q pmax = Some false) /\
    map reason err = map rejection (bad_lines mixed_lines) /\
    Forall (skipped_record "input-int-1.txt") err.
Proof.
  assert (Hbad1 : rejected_at_opening (Char.text " 7 )")).
  { split; [repeat constructor; discriminate|].
    exists "7"%char, (Char.text " )"). split; [reflexivity|discriminate]. }
  assert (Hbad2 : unreadable_first_value (Char.text "( x )")).
  { split; [repeat constructor; discriminate|].
    exists (Char.text " x )"), "x"%char, (Char.text " )").
    repeat split; (reflexivity || discriminate). }
  assert (Hrec : forall v, Int.in_range v ->
            distance [v] (Point_default 1) <> None ->
            sound_record Int.in_range 1 [v]).
  { intros v Hv Hd. split; [reflexivity|]. split; [|exact Hd].
    constructor; [exact Hv|constructor]. }
  assert (Hall : Forall (sound_line Int.in_range
            (fun txt => rejected_at_opening txt \/ unreadable_first_value txt)
            1) (Good [1] :: mixed_lines)).
  { unfold mixed_lines.
    apply Forall_cons. split;
      [apply Hrec; [vm_compute; split; discriminate | vm_compute; discriminate]|].
    apply Forall_cons. split; [left; exact Hbad1|].
    apply Forall_cons. split;
      [apply Hrec; [vm_compute; split; discriminate | vm_compute; discriminate]|].
    apply Forall_cons. split; [right; exact Hbad2|]. constructor. }
  assert (Hlen : (length (lines_text (Good [1%Z] :: mixed_lines)) < 40)%nat)
    by (vm_compute; lia).
  assert (Hsize : (0 < 1)%nat) by lia.
  split; [exact Hsize|]. split; [exact Hall|]. split; [exact Hlen|].
  exact (print_max_int_lines 1%nat 40%nat "input-int-1.txt" [1] mixed_lines
           Hsize Hall Hlen).
Defined.

(** ** [toStream] *)

(** X17: [toStream] tells points of [int] components apart: two points
    of as many components with the same text are the same point. *)
Theorem toStream_int_injective (p q : Point Z) :
  length p = length q -> Forall Int.in_range p -> Forall Int.in_range q ->
  toStream p = toStream q -> p = q.
Proof.
  intros Hlen Hp Hq Htxt.
  assert (Hread : forall a : Point Z,
            length a = length p -> Forall Int.in_range a ->
            (fromStream (length p) (open (toStream a ++ [])) p).1.2 = a).
  { intros a Ha Hr.
    apply (fromStream_toStream (T:=Z) (length p) Int.in_range); auto.
    - intros v rest Hv. now apply int_get_put.
    - intros v _. apply int_put_head. }
  pose proof (Hread p eq_refl Hp) as Hp'.
  pose proof (Hread q (eq_sym Hlen) Hq) as Hq'.
  rewrite <- Htxt in Hq'. congruence.
Qed.

Lemma toStream_int_injective_witness :
  length [12; 3] = length [12; 3] /\
  Forall Int.in_range [12; 3] /\
  toStream [12; 3] = toStream [12; 3] /\ [12; 3] = [12; 3].
Proof.
  assert (Hr : Forall Int.in_range [12; 3])
    by (repeat constructor; vm_compute; discriminate).
  split; [reflexivity|]. split; [exact Hr|]. split; [reflexivity|].
  exact (toStream_int_injective [12; 3] [12; 3] eq_refl Hr Hr eq_refl).
Defined.

Section BadFirstLine.

Context {T : Type} `{Numeric T}.
Variable SIZE : nat.

(** X18: when the first line of a file does not start with an opening
    parenthesis, [print_max] writes one block "unable to read first
    element (invalid symbol)" to [cerr] and nothing to [cout], whatever
    the lines after it hold: it does not look for a later record. *)
Theorem print_max_bad_first_line (fuel : nat) filename
    (ws txt rest : list ascii) :
  all_space ws -> rejected_at_opening txt ->
  exists pos,
    print_max (T:=T) SIZE fuel filename (ws ++ txt ++ Char.newline :: rest)
    = Return {| cerr := [mk_report "unable to read first element"
                           "invalid symbol" 35 filename pos];
                cout := EmptyString |}.
Proof.
  intros Hws Htxt. unfold print_max.
  destruct (fromStream_bad_line SIZE
              (open (ws ++ txt ++ Char.newline :: rest))
              (Point_default SIZE) ws txt rest eq_refl Hws Htxt eq_refl)
    as (s1 & tail & Hf & Hg1 & _).
  rewrite Hf. unfold tellg. rewrite Hg1. eauto.
Qed.

End BadFirstLine.

Lemma print_max_bad_first_line_witness :
  all_space [] /\ rejected_at_opening (Char.text "1 2 )") /\
  exists pos,
    print_max (T:=Z) 2 0 "input-int-2.txt"
      ([] ++ Char.text "1 2 )" ++ Char.newline :: Char.text "( 3 4 )")
    = Return {| cerr := [mk_report "unable to read first element"
                           "invalid symbol" 35 "input-int-2.txt" pos];
                cout := EmptyString |}.
Proof.
  assert (Hws : all_space []) by constructor.
  assert (Hbad : rejected_at_opening (Char.text "1 2 )")).
  { split; [repeat constructor; discriminate|].
    exists "1"%char, (Char.text " 2 )"). split; [reflexivity|discriminate]. }
  split; [exact Hws|]. split; [exact Hbad|].
  exact (print_max_bad_first_line (T:=Z) 2 0 "input-int-2.txt" []
           (Char.text "1 2 )") (Char.text "( 3 4 )") Hws Hbad).
Defined.
